(** * ScraplingUI: a shallow embedding of [app.py]

    The application is a single Streamlit script.  Its own logic is the
    [scrape] dispatch-and-normalise function, the button handler, the
    exporters and the bounded job history.  Page fetching and selector
    evaluation belong to the Scrapling library and appear here as a record of
    collaborators; the JSON exporter is embedded together with the encoder
    and decoder of Python's [json] package, while the CSV and spreadsheet
    exporters are single calls into pandas and are not embedded.

    Python [str] values are sequences of Unicode code points, so [len],
    slicing and [strip] count code points, not bytes. *)

From Stdlib Require Import NArith ZArith Ascii String Lia.
From Stdlib Require DecimalString.
From stdpp Require Import base option list gmap.

Local Open Scope N_scope.

(** ** Python strings *)

Definition char := N.
Definition str := list char.

(** ASCII literals of the script, as code-point sequences. *)
Fixpoint lit (s : string) : str :=
  match s with
  | EmptyString => []
  | String a s' => N_of_ascii a :: lit s'
  end.
Arguments lit s%_string : simpl never.

(** [bool(s)] for a string: non-empty. *)
Definition truthy (s : str) : bool :=
  match s with [] => false | _ :: _ => true end.

(** [str.isspace] on one code point (CPython's [_PyUnicode_IsWhitespace]). *)
Definition isspace (c : char) : bool :=
  ((0x09 <=? c) && (c <=? 0x0D)) || ((0x1C <=? c) && (c <=? 0x20))
  || (c =? 0x85) || (c =? 0xA0) || (c =? 0x1680)
  || ((0x2000 <=? c) && (c <=? 0x200A))
  || (c =? 0x2028) || (c =? 0x2029) || (c =? 0x202F) || (c =? 0x205F)
  || (c =? 0x3000).

Fixpoint lstrip (s : str) : str :=
  match s with
  | [] => []
  | c :: s' => if isspace c then lstrip s' else s
  end.

Definition rstrip (s : str) : str := reverse (lstrip (reverse s)).

(** [s.strip()] *)
Definition strip (s : str) : str := rstrip (lstrip s).

Fixpoint startswith (p s : str) : bool :=
  match p, s with
  | [], _ => true
  | _ :: _, [] => false
  | a :: p', b :: s' => (a =? b) && startswith p' s'
  end.

(** [needle in hay] *)
Fixpoint contains (needle hay : str) : bool :=
  startswith needle hay
  || match hay with
     | [] => false
     | _ :: hay' => contains needle hay'
     end.

Definition str_eqb (a b : str) : bool := bool_decide (a = b).

(** [str(n)] for a non-negative integer. *)
Definition str_of_nat (n : nat) : str :=
  lit (DecimalString.NilZero.string_of_uint (Nat.to_uint n)).

(** ** Matched elements and result records *)

(** What the script reads from a matched node: the [text] and [html]
    attributes when the object has them ([hasattr]), and [str(el)].  The
    library's accessors return strings (its [TextHandler] is a [str]); a
    bare text handler, as a [::text] query yields, has neither attribute. *)
Record element := Element {
  el_text : option str;
  el_html : option str;
  el_str : str
}.

(** A result record is a [dict] of strings; insertion order is kept because
    the exporters write keys in that order. *)
Definition record := list (str * str).

Definition keys (r : record) : list str := r.*1.

(** One iteration of the [for el in elements] loop; [data.append] adds at
    the end. *)
Definition scrape_step (selector : str) (data : list record) (el : element)
  : list record :=
  if contains (lit "::text") selector then
    let text := match el_text el with Some t => t | None => el_str el end in
    if truthy text && truthy (strip text)
    then data ++ [[(lit "text", strip text)]]
    else data
  else if contains (lit "::attr(") selector then
    data ++ [[(lit "value", el_str el)]]
  else
    let text := match el_text el with Some t => t | None => [] end in
    let html := match el_html el with Some h => h | None => el_str el end in
    data ++ [[(lit "text", if truthy text then strip text else []);
              (lit "html", take 200 html)]].

Definition normalize (selector : str) (elements : list element) : list record :=
  fold_left (scrape_step selector) elements [].

(** ** The Scrapling library, the session and the effects of the script *)

(** Keyword-argument values handed through to the library. *)
Inductive pyval :=
| PNone
| PBool (b : bool)
| PInt (z : Z)
| PStr (s : str).

(** A raised exception; the script only ever looks at [str(exc)]. *)
Record exn := Exn { exn_str : str }.

(** The page object returned by a fetcher: its two query methods. *)
Record page := Page {
  page_css : str -> exn + list element;
  page_xpath : str -> exn + list element
}.

(** The three fetch entry points the script imports. *)
Record scrapling := Scrapling {
  Fetcher_get : str -> pyval -> pyval -> exn + page;
  StealthyFetcher_fetch : str -> pyval -> pyval -> pyval -> exn + page;
  DynamicFetcher_fetch : str -> pyval -> pyval -> exn + page
}.

(** Every call that leaves the script towards the library. *)
Inductive call :=
| Call_Fetcher_get (url : str) (stealthy_headers timeout : pyval)
| Call_StealthyFetcher_fetch (url : str) (headless solve_cloudflare network_idle : pyval)
| Call_DynamicFetcher_fetch (url : str) (headless network_idle : pyval)
| Call_css (selector : str)
| Call_xpath (selector : str).

(** One entry of [st.session_state.history]. *)
Record history_entry := HistoryEntry {
  h_url : str;
  h_fetcher : str;
  h_selector : str;
  h_count : nat;
  h_status : str;
  h_time : str
}.

(** [st.session_state]; [results] starts as [None]. *)
Record session_state := SessionState {
  results : option (list record);
  last_url : str;
  history : list history_entry
}.

Definition initial_session : session_state :=
  {| results := None; last_url := []; history := [] |}.

(** Messages the script shows. *)
Inductive ui_event :=
| St_spinner (msg : str)
| St_success (msg : str)
| St_error (msg : str).

(** Everything the script can change: the session, the log of library calls
    and the log of messages (both oldest first). *)
Record world := World {
  session : session_state;
  calls : list call;
  ui : list ui_event
}.

Definition initial_world : world :=
  {| session := initial_session; calls := []; ui := [] |}.

(** Computations of the script: state passing with exceptions. *)
Definition M (A : Type) : Type := world -> (exn + A) * world.

Definition ret {A} (a : A) : M A := fun w => (inr a, w).

Definition bind {A B} (m : M A) (k : A -> M B) : M B :=
  fun w =>
    match m w with
    | (inl e, w') => (inl e, w')
    | (inr a, w') => k a w'
    end.

Notation "x <- c1 ;; c2" := (bind c1 (fun x => c2))
  (at level 100, c1 at next level, right associativity).
Notation "c1 ;;; c2" := (bind c1 (fun _ => c2))
  (at level 100, right associativity).

(** [try: m except Exception as exc: h exc] *)
Definition try_except {A} (m : M A) (h : exn -> M A) : M A :=
  fun w =>
    match m w with
    | (inl e, w') => h e w'
    | (inr a, w') => (inr a, w')
    end.

(** The world after the library calls [cs] were made in [w]. *)
Definition after_calls (w : world) (cs : list call) : world :=
  {| session := session w; calls := calls w ++ cs; ui := ui w |}.

(** A library call: it is logged, then returns or raises. *)
Definition invoke {A} (c : call) (r : exn + A) : M A :=
  fun w => (r, after_calls w [c]).

Definition show (e : ui_event) : M unit :=
  fun w => (inr tt, {| session := session w; calls := calls w; ui := ui w ++ [e] |}).

Definition modify_session (f : session_state -> session_state) : M unit :=
  fun w => (inr tt, {| session := f (session w); calls := calls w; ui := ui w |}).

Definition set_results (d : list record) (s : session_state) : session_state :=
  {| results := Some d; last_url := last_url s; history := history s |}.

Definition map_history (f : list history_entry -> list history_entry)
  (s : session_state) : session_state :=
  {| results := results s; last_url := last_url s; history := f (history s) |}.

(** [options.get(name, dflt)] *)
Definition options_get (options : gmap str pyval) (name : str) (dflt : pyval) : pyval :=
  default dflt (options !! name).

(** The two status glyphs of the script. *)
Definition check_mark : str := [0x2705].
Definition cross_mark : str := [0x274C].

Section Script.
Context (lib : scrapling).

(** The body of the [try] block of [scrape]; the part after the fetcher
    dispatch is shared by the three fetchers. *)
Definition scrape_body (url fetcher_type selector selector_type : str)
  (options : gmap str pyval) : M (bool * list record * str) :=
  let extract (page : page) : M (bool * list record * str) :=
    elements <-
      (if str_eqb selector_type (lit "CSS")
       then invoke (Call_css selector) (page_css page selector)
       else invoke (Call_xpath selector) (page_xpath page selector)) ;;
    ret (true, normalize selector elements, [])
  in
  if str_eqb fetcher_type (lit "Fetcher") then
    let timeout := options_get options (lit "timeout") (PInt 30) in
    page <- invoke (Call_Fetcher_get url (PBool true) timeout)
              (Fetcher_get lib url (PBool true) timeout) ;;
    extract page
  else if str_eqb fetcher_type (lit "StealthyFetcher") then
    let headless := options_get options (lit "headless") (PBool true) in
    let solve_cloudflare :=
      options_get options (lit "solve_cloudflare") (PBool false) in
    page <- invoke
              (Call_StealthyFetcher_fetch url headless solve_cloudflare (PBool true))
              (StealthyFetcher_fetch lib url headless solve_cloudflare (PBool true)) ;;
    extract page
  else if str_eqb fetcher_type (lit "DynamicFetcher") then
    let headless := options_get options (lit "headless") (PBool true) in
    let network_idle := options_get options (lit "network_idle") (PBool true) in
    page <- invoke (Call_DynamicFetcher_fetch url headless network_idle)
              (DynamicFetcher_fetch lib url headless network_idle) ;;
    extract page
  else
    ret (false, [], lit "Unknown fetcher type: " ++ fetcher_type).

(** [scrape(url, fetcher_type, selector, selector_type, options)] *)
Definition scrape (url fetcher_type selector selector_type : str)
  (options : gmap str pyval) : M (bool * list record * str) :=
  try_except
    (scrape_body url fetcher_type selector selector_type options)
    (fun exc => ret (false, [], exn_str exc)).

(** [add_to_history(url, fetcher, selector, count, status)]; [now] is what
    [datetime.now().strftime("%H:%M:%S")] returns at the call. *)
Definition add_to_history (now : str) (url fetcher selector : str)
  (count : nat) (status : str) : M unit :=
  modify_session (map_history (fun h =>
    {| h_url := if (50 <? length url)%nat then take 50 url ++ lit "..." else url;
       h_fetcher := fetcher;
       h_selector :=
         if (30 <? length selector)%nat then take 30 selector ++ lit "..." else selector;
       h_count := count;
       h_status := status;
       h_time := now |} :: h)) ;;;
  modify_session (map_history (take 20)).

(** The body of [if st.button("Scrape", ...)]. *)
Definition on_scrape_click (now : str)
  (url fetcher_type selector selector_type : str) (options : gmap str pyval)
  : M unit :=
  if negb (truthy url) then
    show (St_error (lit "Please enter a URL"))
  else if negb (truthy selector) then
    show (St_error (lit "Please enter a selector"))
  else
    show (St_spinner (lit "Scraping with " ++ fetcher_type ++ lit "...")) ;;;
    r <- scrape url fetcher_type selector selector_type options ;;
    let '(success, data, error) := r in
    if success : bool then
      modify_session (set_results data) ;;;
      show (St_success
              (check_mark ++ lit " Found " ++ str_of_nat (length data) ++ lit " items!")) ;;;
      add_to_history now url fetcher_type selector (length data) check_mark
    else
      show (St_error (cross_mark ++ lit " Error: " ++ error)) ;;;
      add_to_history now url fetcher_type selector 0 cross_mark.
End Script.

(** ** Sample inputs *)

(** Three matched nodes: a selector object with text and html, a bare text
    handler (no attributes), and a node whose text is blank. *)
Definition sample_elements : list element :=
  [ Element (Some (lit "  Hello ")) (Some (lit "<p>  Hello </p>")) (lit "<p>  Hello </p>");
    Element None None (lit " world");
    Element (Some (lit "   ")) None (lit "<br>") ].

(** A page whose CSS query matches [sample_elements] and whose XPath query
    raises. *)
Definition sample_page : page :=
  {| page_css := fun _ => inr sample_elements;
     page_xpath := fun _ => inl (Exn (lit "Invalid XPath expression")) |}.

(** A library whose plain and dynamic fetchers return [sample_page] and
    whose stealthy fetcher raises. *)
Definition sample_lib : scrapling :=
  {| Fetcher_get := fun _ _ _ => inr sample_page;
     StealthyFetcher_fetch := fun _ _ _ _ => inl (Exn (lit "Page.goto: Timeout 30000ms exceeded"));
     DynamicFetcher_fetch := fun _ _ _ => inr sample_page |}.

Definition sample_entry (n : nat) : history_entry :=
  {| h_url := lit "https://quotes.toscrape.com";
     h_fetcher := lit "Fetcher";
     h_selector := lit "p::text";
     h_count := n;
     h_status := check_mark;
     h_time := lit "12:00:00" |}.

(** A session that already holds the records of an earlier run. *)
Definition sample_world : world :=
  {| session :=
       {| results := Some [[(lit "text", lit "old")]];
          last_url := [];
          history := [sample_entry 1] |};
     calls := [];
     ui := [] |}.

(** A world whose history is full: twenty entries, counts 1 (newest) to 20. *)
Definition full_world : world :=
  {| session :=
       {| results := None; last_url := []; history := sample_entry <$> seq 1 20 |};
     calls := [];
     ui := [] |}.

(** ** Notions used to state the properties of [scrape] *)

(** The fetch entry point that [scrape] calls for a fetcher type and what it
    answers; [None] for an unknown fetcher type. *)
Definition fetched (lib : scrapling) (url fetcher_type : str)
  (options : gmap str pyval) : option (exn + page) :=
  if str_eqb fetcher_type (lit "Fetcher") then
    Some (Fetcher_get lib url (PBool true) (options_get options (lit "timeout") (PInt 30)))
  else if str_eqb fetcher_type (lit "StealthyFetcher") then
    Some (StealthyFetcher_fetch lib url
            (options_get options (lit "headless") (PBool true))
            (options_get options (lit "solve_cloudflare") (PBool false))
            (PBool true))
  else if str_eqb fetcher_type (lit "DynamicFetcher") then
    Some (DynamicFetcher_fetch lib url
            (options_get options (lit "headless") (PBool true))
            (options_get options (lit "network_idle") (PBool true)))
  else None.

(** The answer of the selector query [scrape] runs on a page. *)
Definition queried (pg : page) (selector selector_type : str) : exn + list element :=
  if str_eqb selector_type (lit "CSS")
  then page_css pg selector
  else page_xpath pg selector.

(** ** JSON export

    [to_json] is [json.dumps(data, indent=2, ensure_ascii=False)] followed by
    [.encode("utf-8")].  The encoder below is the one of Python's [json]
    package for a list of dictionaries from strings to strings. *)

Definition c_quote : char := 0x22.
Definition c_backslash : char := 0x5C.
Definition c_lbracket : char := 0x5B.
Definition c_rbracket : char := 0x5D.
Definition c_lbrace : char := 0x7B.
Definition c_rbrace : char := 0x7D.
Definition c_comma : char := 0x2C.
Definition c_colon : char := 0x3A.
Definition c_space : char := 0x20.
Definition c_newline : char := 0x0A.

(** A lower-case hexadecimal digit, as [format(i, "04x")] writes it. *)
Definition hex_digit (d : N) : char :=
  if d <? 10 then 0x30 + d else 0x61 + (d - 10).

(** [ESCAPE_DCT] of [json.encoder]: what replaces a character matched by
    [ESCAPE]; every other character is written as it is. *)
Definition escape_char (c : char) : str :=
  if c =? 0x5C then [c_backslash; c_backslash]
  else if c =? 0x22 then [c_backslash; c_quote]
  else if c =? 0x08 then [c_backslash; 0x62]
  else if c =? 0x0C then [c_backslash; 0x66]
  else if c =? 0x0A then [c_backslash; 0x6E]
  else if c =? 0x0D then [c_backslash; 0x72]
  else if c =? 0x09 then [c_backslash; 0x74]
  else if c <? 0x20 then
    [c_backslash; 0x75; 0x30; 0x30; hex_digit (c / 16); hex_digit (c mod 16)]
  else [c].

(** [encode_basestring], used because [ensure_ascii] is false. *)
Definition encode_basestring (s : str) : str :=
  c_quote :: flat_map escape_char s ++ [c_quote].

(** [sep.join(parts)] *)
Fixpoint join (sep : str) (parts : list str) : str :=
  match parts with
  | [] => []
  | [p] => p
  | p :: ps => p ++ sep ++ join sep ps
  end.

(** ['\n' + _indent * level] with [_indent] two spaces. *)
Definition newline_indent (level : nat) : str :=
  c_newline :: replicate (2 * level) c_space.

(** One [key: value] pair; the key separator is [": "]. *)
Definition encode_member (kv : str * str) : str :=
  encode_basestring kv.1 ++ [c_colon; c_space] ++ encode_basestring kv.2.

(** [_iterencode_dict] at nesting depth [level]. *)
Definition iterencode_dict (level : nat) (r : record) : str :=
  match r with
  | [] => [c_lbrace; c_rbrace]
  | _ :: _ =>
      c_lbrace :: newline_indent (S level)
      ++ join (c_comma :: newline_indent (S level)) (encode_member <$> r)
      ++ newline_indent level ++ [c_rbrace]
  end.

(** [_iterencode_list] at nesting depth [level]. *)
Definition iterencode_list (level : nat) (data : list record) : str :=
  match data with
  | [] => [c_lbracket; c_rbracket]
  | _ :: _ =>
      c_lbracket :: newline_indent (S level)
      ++ join (c_comma :: newline_indent (S level)) (iterencode_dict (S level) <$> data)
      ++ newline_indent level ++ [c_rbracket]
  end.

(** [json.dumps(data, indent=2, ensure_ascii=False)] *)
Definition json_dumps (data : list record) : str := iterencode_list 0 data.

(** *** UTF-8 *)

(** Bytes are numbers below 256. *)
Definition bytes := list N.

(** The UTF-8 codec's encoder for one code point; [None] is the
    [UnicodeEncodeError] raised for a surrogate. *)
Definition utf8_encode_char (c : char) : option bytes :=
  if c <? 0x80 then Some [c]
  else if c <? 0x800 then Some [0xC0 + c / 64; 0x80 + c mod 64]
  else if c <? 0x10000 then
    if (0xD800 <=? c) && (c <=? 0xDFFF) then None
    else Some [0xE0 + c / 4096; 0x80 + (c / 64) mod 64; 0x80 + c mod 64]
  else if c <? 0x110000 then
    Some [0xF0 + c / 262144; 0x80 + (c / 4096) mod 64;
          0x80 + (c / 64) mod 64; 0x80 + c mod 64]
  else None.

(** [s.encode("utf-8")] *)
Fixpoint utf8_encode (s : str) : option bytes :=
  match s with
  | [] => Some []
  | c :: s' =>
      match utf8_encode_char c, utf8_encode s' with
      | Some b, Some bs => Some (b ++ bs)
      | _, _ => None
      end
  end.

(** [to_json(data)]; [None] when [encode] raises. *)
Definition to_json (data : list record) : option bytes :=
  utf8_encode (json_dumps data).

(** *** Reading the export back: [json.loads]

    The decoder of Python's [json] package, for every JSON value except
    numbers ([to_json] writes none; the decoder below rejects them). *)

#[warnings="-register-all"]
Inductive json :=
| JNull
| JBool (b : bool)
| JStr (s : str)
| JArr (items : list json)
| JObj (pairs : list (str * json)).

(** The Python value [to_json] was given, as a decoded JSON value. *)
Definition json_of_data (data : list record) : json :=
  JArr ((fun r : record => JObj ((fun kv : str * str => (kv.1, JStr kv.2)) <$> r)) <$> data).

(** [bytes.decode("utf-8", "surrogatepass")]: shortest forms only, code
    points up to U+10FFFF, encoded surrogates let through. *)
Definition is_cont (b : N) : bool := (0x80 <=? b) && (b <? 0xC0).

Fixpoint utf8_decode (b : bytes) : option str :=
  match b with
  | [] => Some []
  | b0 :: t =>
      if b0 <? 0x80 then cons b0 <$> utf8_decode t
      else if b0 <? 0xC0 then None
      else if b0 <? 0xE0 then
        match t with
        | b1 :: t1 =>
            let c := (b0 - 0xC0) * 64 + (b1 - 0x80) in
            if is_cont b1 && (0x80 <=? c) then cons c <$> utf8_decode t1 else None
        | _ => None
        end
      else if b0 <? 0xF0 then
        match t with
        | b1 :: b2 :: t2 =>
            let c := (b0 - 0xE0) * 4096 + (b1 - 0x80) * 64 + (b2 - 0x80) in
            if is_cont b1 && is_cont b2 && (0x800 <=? c)
            then cons c <$> utf8_decode t2 else None
        | _ => None
        end
      else if b0 <? 0xF8 then
        match t with
        | b1 :: b2 :: b3 :: t3 =>
            let c := (b0 - 0xF0) * 262144 + (b1 - 0x80) * 4096
                     + (b2 - 0x80) * 64 + (b3 - 0x80) in
            if is_cont b1 && is_cont b2 && is_cont b3
               && (0x10000 <=? c) && (c <? 0x110000)
            then cons c <$> utf8_decode t3 else None
        | _ => None
        end
      else None
  end.

(** [json.detect_encoding] answers ["utf-8"]: no byte-order mark and no zero
    byte where UTF-16 or UTF-32 text would have one. *)
Definition detects_utf8 (b : bytes) : bool :=
  negb (match b with
        | b0 :: b1 :: rest =>
            ((b0 =? 0xFE) && (b1 =? 0xFF)) || ((b0 =? 0xFF) && (b1 =? 0xFE))
            || ((b0 =? 0xEF) && (b1 =? 0xBB)
                && match rest with b2 :: _ => b2 =? 0xBF | [] => false end)
            || ((b0 =? 0) && (b1 =? 0)
                && match rest with
                   | b2 :: b3 :: _ => (b2 =? 0xFE) && (b3 =? 0xFF)
                   | _ => false
                   end)
            || match rest with
               | [] | _ :: _ :: _ => (b0 =? 0) || (b1 =? 0)
               | [_] => false
               end
        | _ => false
        end).

(** The whitespace the decoder skips between tokens. *)
Definition is_json_ws (c : char) : bool :=
  (c =? 0x20) || (c =? 0x09) || (c =? 0x0A) || (c =? 0x0D).

Fixpoint skip_ws (s : str) : str :=
  match s with
  | [] => []
  | c :: s' => if is_json_ws c then skip_ws s' else s
  end.

Definition hex_value (c : char) : option N :=
  if (0x30 <=? c) && (c <=? 0x39) then Some (c - 0x30)
  else if (0x61 <=? c) && (c <=? 0x66) then Some (c - 0x61 + 10)
  else if (0x41 <=? c) && (c <=? 0x46) then Some (c - 0x41 + 10)
  else None.

(** [_decode_uXXXX]: four hexadecimal digits. *)
Definition decode_uXXXX (h1 h2 h3 h4 : char) : option N :=
  d1 ← hex_value h1; d2 ← hex_value h2; d3 ← hex_value h3; d4 ← hex_value h4;
  Some (((d1 * 16 + d2) * 16 + d3) * 16 + d4).

(** [BACKSLASH]: the one-letter escapes. *)
Definition backslash_escape (e : char) : option char :=
  if e =? 0x22 then Some 0x22
  else if e =? 0x5C then Some 0x5C
  else if e =? 0x2F then Some 0x2F
  else if e =? 0x62 then Some 0x08
  else if e =? 0x66 then Some 0x0C
  else if e =? 0x6E then Some 0x0A
  else if e =? 0x72 then Some 0x0D
  else if e =? 0x74 then Some 0x09
  else None.

(** [scanstring] in strict mode, from just after the opening quote: the
    decoded string and the text after the closing quote. *)
Fixpoint scanstring (s : str) : option (str * str) :=
  match s with
  | [] => None
  | c :: s1 =>
      if c =? 0x22 then Some ([], s1)
      else if c =? 0x5C then
        match s1 with
        | [] => None
        | e :: s2 =>
            if e =? 0x75 then
              match s2 with
              | h1 :: h2 :: h3 :: h4 :: s3 =>
                  uni ← decode_uXXXX h1 h2 h3 h4;
                  if (0xD800 <=? uni) && (uni <=? 0xDBFF) then
                    match s3 with
                    | b :: u :: g1 :: g2 :: g3 :: g4 :: s4 =>
                        if (b =? 0x5C) && (u =? 0x75) then
                          uni2 ← decode_uXXXX g1 g2 g3 g4;
                          if (0xDC00 <=? uni2) && (uni2 <=? 0xDFFF) then
                            '(r, rest) ← scanstring s4;
                            Some ((0x10000 + ((uni - 0xD800) * 1024 + (uni2 - 0xDC00))) :: r,
                                  rest)
                          else
                            '(r, rest) ← scanstring s3; Some (uni :: r, rest)
                        else
                          '(r, rest) ← scanstring s3; Some (uni :: r, rest)
                    | _ => '(r, rest) ← scanstring s3; Some (uni :: r, rest)
                    end
                  else
                    '(r, rest) ← scanstring s3; Some (uni :: r, rest)
              | _ => None
              end
            else
              ch ← backslash_escape e;
              '(r, rest) ← scanstring s2; Some (ch :: r, rest)
        end
      else if c <? 0x20 then None
      else '(r, rest) ← scanstring s1; Some (c :: r, rest)
  end.

(** [dict(pairs)]: a later pair with the same key replaces the value and
    keeps the place of the first. *)
Fixpoint dict_set (d : list (str * json)) (k : str) (v : json) : list (str * json) :=
  match d with
  | [] => [(k, v)]
  | (k', v') :: d' => if str_eqb k' k then (k', v) :: d' else (k', v') :: dict_set d' k v
  end.

Definition dict_of_pairs (pairs : list (str * json)) : list (str * json) :=
  fold_left (fun d kv => dict_set d kv.1 kv.2) pairs [].

(** [scan_once], [JSONObject] (from just after the opening quote of a key)
    and [JSONArray] (from the start of an item).  The decoder recurses on the
    text that is left; [fuel] bounds the number of nested calls and
    [json_loads] supplies more than the length of the text. *)
Fixpoint scan_once (fuel : nat) (s : str) : option (json * str) :=
  match fuel with
  | O => None
  | S fuel' =>
      match s with
      | [] => None
      | c :: s1 =>
          if c =? 0x22 then
            '(v, rest) ← scanstring s1; Some (JStr v, rest)
          else if c =? 0x7B then
            match skip_ws s1 with
            | [] => None
            | d :: s2 =>
                if d =? 0x7D then Some (JObj [], s2)
                else if d =? 0x22 then
                  '(pairs, rest) ← object_members fuel' s2;
                  Some (JObj (dict_of_pairs pairs), rest)
                else None
            end
          else if c =? 0x5B then
            match skip_ws s1 with
            | [] => None
            | d :: s2 =>
                if d =? 0x5D then Some (JArr [], s2)
                else '(items, rest) ← array_items fuel' (d :: s2); Some (JArr items, rest)
            end
          else if startswith (lit "null") s then Some (JNull, drop 4 s)
          else if startswith (lit "true") s then Some (JBool true, drop 4 s)
          else if startswith (lit "false") s then Some (JBool false, drop 5 s)
          else None
      end
  end
with object_members (fuel : nat) (s : str) : option (list (str * json) * str) :=
  match fuel with
  | O => None
  | S fuel' =>
      '(key, s1) ← scanstring s;
      match skip_ws s1 with
      | [] => None
      | c :: s2 =>
          if c =? 0x3A then
            '(value, s3) ← scan_once fuel' (skip_ws s2);
            match skip_ws s3 with
            | [] => None
            | d :: s4 =>
                if d =? 0x7D then Some ([(key, value)], s4)
                else if d =? 0x2C then
                  match skip_ws s4 with
                  | [] => None
                  | q :: s5 =>
                      if q =? 0x22 then
                        '(more, rest) ← object_members fuel' s5;
                        Some ((key, value) :: more, rest)
                      else None
                  end
                else None
            end
          else None
      end
  end
with array_items (fuel : nat) (s : str) : option (list json * str) :=
  match fuel with
  | O => None
  | S fuel' =>
      '(value, s1) ← scan_once fuel' s;
      match skip_ws s1 with
      | [] => None
      | d :: s2 =>
          if d =? 0x5D then Some ([value], s2)
          else if d =? 0x2C then
            '(more, rest) ← array_items fuel' (skip_ws s2);
            Some (value :: more, rest)
          else None
      end
  end.

(** [json.loads(b)] for [bytes]: decode, skip leading whitespace, read one
    value, and accept only whitespace after it. *)
Definition json_loads (b : bytes) : option json :=
  if detects_utf8 b then
    s ← utf8_decode b;
    '(v, rest) ← scan_once (S (length s)) (skip_ws s);
    match skip_ws rest with
    | [] => Some v
    | _ :: _ => None
    end
  else None.

(** *** Well-formed inputs of the exporters *)

(** Unicode scalar values: the code points that UTF-8 encodes. *)
Definition is_scalar (c : char) : bool :=
  (c <? 0xD800) || ((0xDFFF <? c) && (c <? 0x110000)).

Definition str_encodable (s : str) : Prop := Forall (fun c => is_scalar c = true) s.

(** Every key and value of every record is made of scalar values. *)
Definition data_encodable (data : list record) : Prop :=
  Forall (Forall (fun kv : str * str => str_encodable kv.1 /\ str_encodable kv.2)) data.

(** A [dict] holds a key once. *)
Definition dicts (data : list record) : Prop :=
  Forall (fun r => NoDup (keys r)) data.

(** A record with a lone surrogate, which a Python [str] may hold. *)
Definition surrogate_data : list record := [[(lit "text", [0xD800])]].

(** ** The rest of the script: presets, sidebar, history panel *)

(** [QUICK_MAP], the selector behind each entry of the quick-selector list. *)
Definition QUICK_MAP : gmap str str :=
  list_to_map
    [ (lit "All links", lit "a::attr(href)");
      (lit "All images", lit "img::attr(src)");
      (lit "All paragraphs", lit "p::text");
      (lit "All headings", lit "h1, h2, h3::text");
      (lit "Table cells", lit "td::text") ].

(** [default_selector = QUICK_MAP.get(quick, "")] *)
Definition default_selector (quick : str) : str :=
  default [] (QUICK_MAP !! quick).

(** What the sidebar widgets return in one run of the script. *)
Record widget_values := WidgetValues {
  w_timeout : Z;
  w_headless : bool;
  w_solve_cloudflare : bool;
  w_network_idle : bool
}.

(** The [options] dictionary the sidebar builds for the chosen fetcher. *)
Definition sidebar_options (fetcher_type : str) (v : widget_values) : gmap str pyval :=
  if str_eqb fetcher_type (lit "Fetcher") then
    <[lit "timeout" := PInt (w_timeout v)]> ∅
  else if str_eqb fetcher_type (lit "StealthyFetcher") then
    <[lit "solve_cloudflare" := PBool (w_solve_cloudflare v)]>
      (<[lit "headless" := PBool (w_headless v)]> ∅)
  else if str_eqb fetcher_type (lit "DynamicFetcher") then
    <[lit "network_idle" := PBool (w_network_idle v)]>
      (<[lit "headless" := PBool (w_headless v)]> ∅)
  else ∅.




(** The test [if st.session_state.results:] that guards the results table
    and the download buttons. *)
Definition results_shown (s : session_state) : bool :=
  match results s with
  | Some (_ :: _) => true
  | _ => false
  end.

(** ** Notions used to state further properties *)

(** The call [scrape] makes to fetch the page; [None] for an unknown fetcher
    type. *)
Definition fetch_call (url fetcher_type : str) (options : gmap str pyval) : option call :=
  if str_eqb fetcher_type (lit "Fetcher") then
    Some (Call_Fetcher_get url (PBool true) (options_get options (lit "timeout") (PInt 30)))
  else if str_eqb fetcher_type (lit "StealthyFetcher") then
    Some (Call_StealthyFetcher_fetch url
            (options_get options (lit "headless") (PBool true))
            (options_get options (lit "solve_cloudflare") (PBool false))
            (PBool true))
  else if str_eqb fetcher_type (lit "DynamicFetcher") then
    Some (Call_DynamicFetcher_fetch url
            (options_get options (lit "headless") (PBool true))
            (options_get options (lit "network_idle") (PBool true)))
  else None.

(** The query [scrape] runs on the fetched page. *)
Definition query_call (selector selector_type : str) : call :=
  if str_eqb selector_type (lit "CSS") then Call_css selector else Call_xpath selector.

(** The arguments of one call of [add_to_history]. *)
Record run := Run {
  run_now : str;
  run_url : str;
  run_fetcher : str;
  run_selector : str;
  run_count : nat;
  run_status : str
}.

(** [add_to_history] called for each run in turn, oldest run first. *)
Fixpoint add_runs (runs : list run) : M unit :=
  match runs with
  | [] => ret tt
  | r :: runs' =>
      add_to_history (run_now r) (run_url r) (run_fetcher r) (run_selector r)
        (run_count r) (run_status r) ;;;
      add_runs runs'
  end.

(** The strings of a matched node are made of scalar values. *)
Definition element_encodable (el : element) : Prop :=
  match el_text el with Some t => str_encodable t | None => True end
  /\ match el_html el with Some h => str_encodable h | None => True end
  /\ str_encodable (el_str el).

(** Twenty-five runs, numbered by their count. *)
Definition sample_runs : list run :=
  (fun n => {| run_now := lit "12:00:00"; run_url := lit "https://example.org";
               run_fetcher := lit "Fetcher"; run_selector := lit "p::text";
               run_count := n; run_status := check_mark |}) <$> seq 1 25.

(** A call of one of the three fetch entry points. *)
Definition is_fetch_call (c : call) : bool :=
  match c with
  | Call_css _ | Call_xpath _ => false
  | _ => true
  end.

(** A page on which every query matches one node with blank text, and a
    library that returns it. *)
Definition blank_page : page :=
  {| page_css := fun _ => inr [Element (Some (lit "   ")) None (lit "<br>")];
     page_xpath := fun _ => inr [Element (Some (lit "   ")) None (lit "<br>")] |}.

Definition blank_lib : scrapling :=
  {| Fetcher_get := fun _ _ _ => inr blank_page;
     StealthyFetcher_fetch := fun _ _ _ _ => inr blank_page;
     DynamicFetcher_fetch := fun _ _ _ => inr blank_page |}.

(** * Properties *)

(** ** Strings *)

Lemma lstrip_nil_iff s : lstrip s = [] <-> forallb isspace s = true.
Proof.
  induction s as [|c s IH]; simpl; [tauto|].
  destruct (isspace c) eqn:Hc; simpl; [exact IH|].
  split; discriminate.
Qed.

Lemma lstrip_head s c t : lstrip s = c :: t -> isspace c = false.
Proof.
  induction s as [|a s IH]; simpl; [discriminate|].
  destruct (isspace a) eqn:Ha; [exact IH|].
  intros [= <- _]. exact Ha.
Qed.

Lemma forallb_reverse {A} (f : A -> bool) l :
  forallb f (reverse l) = forallb f l.
Proof.
  induction l as [|a l IH]; [reflexivity|].
  rewrite reverse_cons, forallb_app, IH. simpl.
  rewrite andb_true_r. apply andb_comm.
Qed.

Lemma strip_nil : strip [] = [].
Proof. reflexivity. Qed.

(** The guard [text and text.strip()] only depends on the stripped text. *)
Lemma truthy_and_strip s : truthy s && truthy (strip s) = truthy (strip s).
Proof. destruct s; reflexivity. Qed.

(** A stripped string that is not empty is not made of whitespace only. *)
Lemma strip_not_blank s : strip s <> [] -> forallb isspace (strip s) = false.
Proof.
  unfold strip, rstrip. intros Hne.
  rewrite forallb_reverse.
  destruct (lstrip (reverse (lstrip s))) as [|c t] eqn:E.
  - exfalso. apply Hne. reflexivity.
  - simpl. rewrite (lstrip_head _ _ _ E). reflexivity.
Qed.

Lemma truthy_true s : truthy s = true <-> s <> [].
Proof. destruct s; simpl; split; congruence. Qed.

Lemma truthy_false s : truthy s = false <-> s = [].
Proof. destruct s; simpl; split; congruence. Qed.

Lemma startswith_spec p s : startswith p s = true <-> exists t, s = p ++ t.
Proof.
  revert s. induction p as [|a p IH]; intros s; simpl.
  - split; [eauto|reflexivity].
  - destruct s as [|b s].
    + split; [discriminate|]. intros [t [=]].
    + rewrite andb_true_iff, N.eqb_eq, IH. split.
      * intros [-> [t ->]]. eauto.
      * intros [t [= -> ->]]. eauto.
Qed.

(** [contains] is the substring test. *)
Lemma contains_spec needle hay :
  contains needle hay = true <-> exists a b, hay = a ++ needle ++ b.
Proof.
  induction hay as [|c hay IH].
  - simpl. rewrite orb_false_r, startswith_spec. split.
    + intros [t ->]. exists [], t. reflexivity.
    + intros (a & b & H). symmetry in H.
      apply app_eq_nil in H as [-> H]. apply app_eq_nil in H as [-> ->].
      exists []. reflexivity.
  - simpl. rewrite orb_true_iff, startswith_spec, IH. split.
    + intros [[t ->] | (a & b & ->)].
      * exists [], t. reflexivity.
      * exists (c :: a), b. reflexivity.
    + intros (a & b & H). destruct a as [|x a].
      * left. exists b. exact H.
      * right. injection H as -> ->. eauto.
Qed.

(** ** Normalisation of the matched elements *)

Lemma scrape_step_app selector data el :
  scrape_step selector data el = data ++ scrape_step selector [] el.
Proof.
  unfold scrape_step.
  repeat match goal with |- context [if ?b then _ else _] => destruct b end;
    simpl; rewrite ?app_nil_r; reflexivity.
Qed.

Lemma fold_scrape_step selector elements data :
  fold_left (scrape_step selector) elements data =
  data ++ flat_map (scrape_step selector []) elements.
Proof.
  revert data. induction elements as [|el els IH]; intros data; simpl.
  - rewrite app_nil_r. reflexivity.
  - rewrite IH, scrape_step_app, <- app_assoc. reflexivity.
Qed.

Lemma normalize_flat_map selector elements :
  normalize selector elements = flat_map (scrape_step selector []) elements.
Proof. unfold normalize. apply fold_scrape_step. Qed.

(** The [::text] branch, whatever else the selector contains. *)
Lemma normalize_text selector elements :
  contains (lit "::text") selector = true ->
  normalize selector elements =
  (fun t => [(lit "text", t)]) <$>
    filter (fun t => t <> [])
      ((fun el => strip (default (el_str el) (el_text el))) <$> elements).
Proof.
  intros Hsel. rewrite normalize_flat_map.
  induction elements as [|el els IH]; [reflexivity|].
  rewrite fmap_cons, filter_cons. simpl flat_map. rewrite IH.
  unfold scrape_step at 1. rewrite Hsel.
  replace (match el_text el with Some t => t | None => el_str el end)
    with (default (el_str el) (el_text el)) by (destruct (el_text el); reflexivity).
  generalize (default (el_str el) (el_text el)). intros x.
  rewrite truthy_and_strip.
  destruct (strip x) as [|c t]; cbn [truthy].
  - rewrite decide_False by tauto. reflexivity.
  - rewrite decide_True by discriminate. reflexivity.
Qed.

(** C1: with [::text] in the selector, [scrape]'s loop emits, in element
    order, one record [{"text": t}] for each element whose text (its [text]
    attribute, or [str(el)] when it has none) is non-empty after [strip],
    with [t] the stripped text; every emitted record has the single key
    [text] and a value that is neither empty nor made of whitespace only. *)
Theorem C1_text_selector_records selector elements :
  contains (lit "::text") selector = true ->
  normalize selector elements =
    ((fun t => [(lit "text", t)]) <$>
      filter (fun t => t <> [])
        ((fun el => strip (default (el_str el) (el_text el))) <$> elements))
  /\ Forall (fun r : record =>
       exists v, r = [(lit "text", v)] /\ keys r = [lit "text"]
                 /\ v <> [] /\ forallb isspace v = false)
       (normalize selector elements).
Proof.
  intros Hsel. split; [apply normalize_text, Hsel|].
  rewrite (normalize_text _ _ Hsel).
  apply Forall_fmap, Forall_forall. intros v Hv.
  apply list_elem_of_filter in Hv as [Hne Hv].
  apply list_elem_of_fmap in Hv as (el & -> & _).
  simpl. eexists. repeat split; [exact Hne|].
  apply strip_not_blank, Hne.
Qed.

Lemma C1_text_selector_records_witness :
  normalize (lit "p::text") sample_elements =
    ((fun t => [(lit "text", t)]) <$>
      filter (fun t => t <> [])
        ((fun el => strip (default (el_str el) (el_text el))) <$> sample_elements))
  /\ Forall (fun r : record =>
       exists v, r = [(lit "text", v)] /\ keys r = [lit "text"]
                 /\ v <> [] /\ forallb isspace v = false)
       (normalize (lit "p::text") sample_elements).
Proof.
  apply (C1_text_selector_records (lit "p::text") sample_elements).
  vm_compute. reflexivity.
Defined.

Lemma normalize_attr selector elements :
  contains (lit "::text") selector = false ->
  contains (lit "::attr(") selector = true ->
  normalize selector elements = (fun el => [(lit "value", el_str el)]) <$> elements.
Proof.
  intros Ht Ha. rewrite normalize_flat_map.
  induction elements as [|el els IH]; [reflexivity|].
  rewrite fmap_cons. simpl flat_map. rewrite IH.
  unfold scrape_step at 1. rewrite Ht, Ha. reflexivity.
Qed.

(** C2: with [::attr(] but not [::text] in the selector, the loop emits
    exactly one record per element, in order, each [{"value": str(el)}] with
    the single key [value]; when [::text] is present as well, the [::text]
    branch is the one taken. *)
Theorem C2_attr_selector_records selector elements :
  contains (lit "::attr(") selector = true ->
  (contains (lit "::text") selector = false ->
     normalize selector elements = ((fun el => [(lit "value", el_str el)]) <$> elements)
     /\ length (normalize selector elements) = length elements
     /\ Forall (fun r : record => keys r = [lit "value"]) (normalize selector elements))
  /\ (contains (lit "::text") selector = true ->
        normalize selector elements =
          ((fun t => [(lit "text", t)]) <$>
            filter (fun t => t <> [])
              ((fun el => strip (default (el_str el) (el_text el))) <$> elements))).
Proof.
  intros Ha. split; [|apply normalize_text].
  intros Ht. rewrite (normalize_attr _ _ Ht Ha).
  split; [reflexivity|]. split; [apply length_fmap|].
  apply Forall_fmap, Forall_forall. intros el _. reflexivity.
Qed.

Lemma C2_attr_selector_records_witness :
  normalize (lit "a::attr(href)") sample_elements =
    ((fun el => [(lit "value", el_str el)]) <$> sample_elements)
  /\ length (normalize (lit "a::attr(href)") sample_elements) = length sample_elements
  /\ Forall (fun r : record => keys r = [lit "value"])
       (normalize (lit "a::attr(href)") sample_elements).
Proof.
  apply (C2_attr_selector_records (lit "a::attr(href)") sample_elements);
    vm_compute; reflexivity.
Defined.

Lemma normalize_other selector elements :
  contains (lit "::text") selector = false ->
  contains (lit "::attr(") selector = false ->
  normalize selector elements =
  (fun el => [(lit "text", match el_text el with Some t => strip t | None => [] end);
              (lit "html", take 200 (default (el_str el) (el_html el)))]) <$> elements.
Proof.
  intros Ht Ha. rewrite normalize_flat_map.
  induction elements as [|el els IH]; [reflexivity|].
  rewrite fmap_cons. simpl flat_map. rewrite IH.
  unfold scrape_step at 1. rewrite Ht, Ha.
  destruct (el_text el) as [[|c t]|]; destruct (el_html el); reflexivity.
Qed.

(** C3: with neither [::text] nor [::attr(] in the selector, the loop emits
    exactly one record per element, in order, with the two keys [text] and
    [html]: [text] is the stripped [text] attribute, or the empty string when
    the node has none, and [html] is the first 200 characters of the [html]
    attribute (of [str(el)] when the node has none), so at most 200 long. *)
Theorem C3_plain_selector_records selector elements :
  contains (lit "::text") selector = false ->
  contains (lit "::attr(") selector = false ->
  normalize selector elements =
    ((fun el =>
        [(lit "text", match el_text el with Some t => strip t | None => [] end);
         (lit "html", take 200 (default (el_str el) (el_html el)))]) <$> elements)
  /\ length (normalize selector elements) = length elements
  /\ Forall (fun r : record =>
       keys r = [lit "text"; lit "html"]
       /\ exists t h, r = [(lit "text", t); (lit "html", h)] /\ (length h <= 200)%nat)
       (normalize selector elements).
Proof.
  intros Ht Ha. rewrite (normalize_other _ _ Ht Ha).
  split; [reflexivity|]. split; [apply length_fmap|].
  apply Forall_fmap, Forall_forall. intros el _. simpl.
  split; [reflexivity|]. do 2 eexists. split; [reflexivity|].
  rewrite length_take. lia.
Qed.

Lemma C3_plain_selector_records_witness :
  normalize (lit "div.quote") sample_elements =
    ((fun el =>
        [(lit "text", match el_text el with Some t => strip t | None => [] end);
         (lit "html", take 200 (default (el_str el) (el_html el)))]) <$> sample_elements)
  /\ length (normalize (lit "div.quote") sample_elements) = length sample_elements
  /\ Forall (fun r : record =>
       keys r = [lit "text"; lit "html"]
       /\ exists t h, r = [(lit "text", t); (lit "html", h)] /\ (length h <= 200)%nat)
       (normalize (lit "div.quote") sample_elements).
Proof.
  apply (C3_plain_selector_records (lit "div.quote") sample_elements);
    vm_compute; reflexivity.
Defined.

(** ** The job history *)

Lemma add_to_history_run now url fetcher selector count status w :
  add_to_history now url fetcher selector count status w =
  (inr tt,
   {| session :=
        map_history (fun h =>
          take 20
            ({| h_url := if (50 <? length url)%nat then take 50 url ++ lit "..." else url;
                h_fetcher := fetcher;
                h_selector :=
                  if (30 <? length selector)%nat
                  then take 30 selector ++ lit "..." else selector;
                h_count := count;
                h_status := status;
                h_time := now |} :: h)) (session w);
      calls := calls w;
      ui := ui w |}).
Proof. reflexivity. Qed.

Lemma take_20_cons {A} (e : A) h : take 20 (e :: h) = e :: take 19 h.
Proof. reflexivity. Qed.

Lemma length_lit_dots : length (lit "...") = 3%nat.
Proof. reflexivity. Qed.

Lemma truncated_length n (s : str) :
  (length (if (n <? length s)%nat then take n s ++ lit "..." else s) <= n + 3)%nat.
Proof.
  destruct (n <? length s)%nat eqn:E.
  - apply Nat.ltb_lt in E. rewrite length_app, length_take, length_lit_dots. lia.
  - apply Nat.ltb_ge in E. lia.
Qed.

(** C4: on a history of at most 20 entries, [add_to_history] puts the new
    entry at the front and keeps the first 20 entries of the result, so the
    history stays within 20 entries; below 20 nothing is lost, and at 20
    the oldest (last) entry is dropped while the new entry and the 19 most
    recent old ones remain, most recent first. *)
Theorem C4_history_capped now url fetcher selector count status w :
  (length (history (session w)) <= 20)%nat ->
  exists e w',
    add_to_history now url fetcher selector count status w = (inr tt, w')
    /\ h_fetcher e = fetcher /\ h_count e = count /\ h_status e = status
    /\ h_time e = now
    /\ history (session w') = take 20 (e :: history (session w))
    /\ (length (history (session w')) <= 20)%nat
    /\ ((length (history (session w)) < 20)%nat ->
        history (session w') = e :: history (session w))
    /\ (length (history (session w)) = 20%nat ->
        history (session w') = e :: take 19 (history (session w))
        /\ history (session w) = take 19 (history (session w)) ++ drop 19 (history (session w))
        /\ length (drop 19 (history (session w))) = 1%nat).
Proof.
  intros Hlen. rewrite add_to_history_run.
  eexists. eexists. split; [reflexivity|]. cbn [session history map_history].
  repeat split; try reflexivity.
  - rewrite length_take. lia.
  - intros Hlt. rewrite take_ge by (simpl; lia). reflexivity.
  - symmetry. apply take_drop.
  - rewrite length_drop. lia.
Qed.

Lemma C4_history_capped_witness :
  exists e w',
    add_to_history (lit "12:00:21") (lit "https://example.org") (lit "Fetcher")
      (lit "p::text") 3 check_mark full_world = (inr tt, w')
    /\ h_fetcher e = lit "Fetcher" /\ h_count e = 3%nat /\ h_status e = check_mark
    /\ h_time e = lit "12:00:21"
    /\ history (session w') = take 20 (e :: history (session full_world))
    /\ (length (history (session w')) <= 20)%nat
    /\ ((length (history (session full_world)) < 20)%nat ->
        history (session w') = e :: history (session full_world))
    /\ (length (history (session full_world)) = 20%nat ->
        history (session w') = e :: take 19 (history (session full_world))
        /\ history (session full_world) =
             take 19 (history (session full_world)) ++ drop 19 (history (session full_world))
        /\ length (drop 19 (history (session full_world))) = 1%nat).
Proof.
  apply (C4_history_capped (lit "12:00:21") (lit "https://example.org") (lit "Fetcher")
           (lit "p::text") 3 check_mark full_world).
  vm_compute. lia.
Defined.

(** C10: the entry that [add_to_history] stores holds the url cut to its
    first 50 characters plus ["..."] when it is longer than 50, else the url
    itself, and the selector cut likewise at 30; the stored fields are at
    most 53 and 33 characters long, and this bound is kept for every entry
    of the history. *)
Theorem C10_history_fields_truncated now url fetcher selector count status w :
  exists e rest w',
    add_to_history now url fetcher selector count status w = (inr tt, w')
    /\ history (session w') = e :: rest
    /\ h_url e = (if (50 <? length url)%nat then take 50 url ++ lit "..." else url)
    /\ h_selector e =
         (if (30 <? length selector)%nat then take 30 selector ++ lit "..." else selector)
    /\ (length (h_url e) <= 53)%nat
    /\ (length (h_selector e) <= 33)%nat
    /\ (Forall (fun x => (length (h_url x) <= 53)%nat /\ (length (h_selector x) <= 33)%nat)
          (history (session w)) ->
        Forall (fun x => (length (h_url x) <= 53)%nat /\ (length (h_selector x) <= 33)%nat)
          (history (session w'))).
Proof.
  rewrite add_to_history_run.
  eexists. exists (take 19 (history (session w))). eexists.
  split; [reflexivity|]. cbn [session history map_history h_url h_selector].
  split; [reflexivity|]. split; [reflexivity|]. split; [reflexivity|].
  pose proof (truncated_length 50 url) as Hu.
  pose proof (truncated_length 30 selector) as Hs.
  split; [exact Hu|]. split; [exact Hs|].
  intros Hall. rewrite take_20_cons. constructor; [split; assumption|].
  apply Forall_take, Hall.
Qed.

Lemma C10_history_fields_truncated_witness :
  exists e rest w',
    add_to_history (lit "12:00:21")
      (lit "https://quotes.toscrape.com/tag/inspirational/page/2/?ref=home")
      (lit "Fetcher") (lit "div.quote span.text::text, small.author::text") 3
      check_mark full_world = (inr tt, w')
    /\ history (session w') = e :: rest
    /\ h_url e = lit "https://quotes.toscrape.com/tag/inspirational/page..."
    /\ h_selector e = lit "div.quote span.text::text, sma..."
    /\ (length (h_url e) <= 53)%nat
    /\ (length (h_selector e) <= 33)%nat
    /\ Forall (fun x => (length (h_url x) <= 53)%nat /\ (length (h_selector x) <= 33)%nat)
         (history (session w')).
Proof.
  destruct (C10_history_fields_truncated (lit "12:00:21")
      (lit "https://quotes.toscrape.com/tag/inspirational/page/2/?ref=home")
      (lit "Fetcher") (lit "div.quote span.text::text, small.author::text") 3
      check_mark full_world)
    as (e & rest & w' & H1 & H2 & H3 & H4 & H5 & H6 & H7).
  exists e, rest, w'. repeat split; try assumption.
  apply H7. vm_compute. repeat constructor.
Defined.

(** ** [scrape] and the button handler *)

Lemma str_eqb_true a b : str_eqb a b = true <-> a = b.
Proof. unfold str_eqb. apply bool_decide_eq_true. Qed.

Lemma str_eqb_false a b : str_eqb a b = false <-> a <> b.
Proof. unfold str_eqb. apply bool_decide_eq_false. Qed.

Lemma after_calls_nil w : after_calls w [] = w.
Proof. destruct w. unfold after_calls. cbn. rewrite app_nil_r. reflexivity. Qed.

Lemma after_calls_app w cs1 cs2 :
  after_calls (after_calls w cs1) cs2 = after_calls w (cs1 ++ cs2).
Proof. unfold after_calls. cbn. rewrite app_assoc. reflexivity. Qed.

Lemma bind_invoke_raise {A B} c e (k : A -> M B) w :
  (x <- invoke c (inl e) ;; k x) w = (inl e, after_calls w [c]).
Proof. reflexivity. Qed.

Lemma bind_invoke_return {A B} c a (k : A -> M B) w :
  (x <- invoke c (inr a) ;; k x) w = k a (after_calls w [c]).
Proof. reflexivity. Qed.

Section ScriptProperties.
Context (lib : scrapling).

(** The outcome of the [try] block and the calls it makes do not depend on
    the world it starts in; it changes nothing but the call log. *)
Lemma scrape_body_uniform url fetcher_type selector selector_type options :
  exists r cs, forall w,
    scrape_body lib url fetcher_type selector selector_type options w =
    (r, after_calls w cs).
Proof.
  unfold scrape_body.
  assert (forall pg, exists (r : exn + bool * list record * str) cs, forall w,
    (elements <-
       (if str_eqb selector_type (lit "CSS")
        then invoke (Call_css selector) (page_css pg selector)
        else invoke (Call_xpath selector) (page_xpath pg selector)) ;;
     ret (true, normalize selector elements, [])) w = (r, after_calls w cs)) as Hq.
  { intros pg. destruct (str_eqb selector_type (lit "CSS")).
    - destruct (page_css pg selector) as [e|els];
        eexists; eexists; intros w; reflexivity.
    - destruct (page_xpath pg selector) as [e|els];
        eexists; eexists; intros w; reflexivity. }
  destruct (str_eqb fetcher_type (lit "Fetcher"));
    [|destruct (str_eqb fetcher_type (lit "StealthyFetcher"));
      [|destruct (str_eqb fetcher_type (lit "DynamicFetcher"))]].
  4: { eexists. exists []. intros w. rewrite after_calls_nil. reflexivity. }
  all: match goal with
       | |- context [invoke _ ?x] => destruct x as [e|pg]
       end.
  all: try (eexists; eexists; intros w; rewrite bind_invoke_raise; reflexivity).
  all: destruct (Hq pg) as (r & cs & H); eexists; eexists; intros w;
    rewrite bind_invoke_return, H, after_calls_app; reflexivity.
Qed.

(** [scrape] never lets an exception escape. *)
Lemma scrape_uniform url fetcher_type selector selector_type options :
  exists r cs, forall w,
    scrape lib url fetcher_type selector selector_type options w =
    (inr r, after_calls w cs).
Proof.
  destruct (scrape_body_uniform url fetcher_type selector selector_type options)
    as (r & cs & H).
  unfold scrape, try_except, ret.
  destruct r as [e|r]; eexists; exists cs; intros w; rewrite H; reflexivity.
Qed.

Lemma scrape_of_body_raise url fetcher_type selector selector_type options w exc w' :
  scrape_body lib url fetcher_type selector selector_type options w = (inl exc, w') ->
  scrape lib url fetcher_type selector selector_type options w =
  (inr (false, [], exn_str exc), w').
Proof. intros H. unfold scrape, try_except, ret. rewrite H. reflexivity. Qed.

(** C9: for a fetcher type other than the three known names, [scrape]
    returns [(False, [], "Unknown fetcher type: " + fetcher_type)] and
    leaves the world, with its log of library calls, as it was: no fetch
    entry point and no selector query is called. *)
Theorem C9_unknown_fetcher_type url fetcher_type selector selector_type options w :
  fetcher_type <> lit "Fetcher" ->
  fetcher_type <> lit "StealthyFetcher" ->
  fetcher_type <> lit "DynamicFetcher" ->
  scrape lib url fetcher_type selector selector_type options w =
    (inr (false, [], lit "Unknown fetcher type: " ++ fetcher_type), w)
  /\ calls (scrape lib url fetcher_type selector selector_type options w).2 = calls w.
Proof.
  intros H1 H2 H3.
  assert (scrape lib url fetcher_type selector selector_type options w =
          (inr (false, [], lit "Unknown fetcher type: " ++ fetcher_type), w)) as E.
  { unfold scrape, try_except, scrape_body.
    apply str_eqb_false in H1, H2, H3. rewrite H1, H2, H3. reflexivity. }
  rewrite E. split; reflexivity.
Qed.

(** What the handler does once [scrape] has returned a failure. *)
Lemma on_scrape_click_failure now url fetcher_type selector selector_type options
    data error cs w :
  url <> [] -> selector <> [] ->
  (forall w0, scrape lib url fetcher_type selector selector_type options w0 =
              (inr (false, data, error), after_calls w0 cs)) ->
  on_scrape_click lib now url fetcher_type selector selector_type options w =
  (inr tt,
   {| session :=
        map_history (fun h =>
          take 20
            ({| h_url := if (50 <? length url)%nat then take 50 url ++ lit "..." else url;
                h_fetcher := fetcher_type;
                h_selector :=
                  if (30 <? length selector)%nat
                  then take 30 selector ++ lit "..." else selector;
                h_count := 0;
                h_status := cross_mark;
                h_time := now |} :: h)) (session w);
      calls := calls w ++ cs;
      ui := ui w ++ [St_spinner (lit "Scraping with " ++ fetcher_type ++ lit "...");
                     St_error (cross_mark ++ lit " Error: " ++ error)] |}).
Proof.
  intros Hu Hs Hrun. unfold on_scrape_click.
  apply truthy_true in Hu, Hs. rewrite Hu, Hs. cbn [negb].
  unfold bind at 1. unfold show at 1. unfold bind at 1. rewrite Hrun.
  unfold bind, show. rewrite add_to_history_run. unfold after_calls.
  cbn [session calls ui]. rewrite <- app_assoc. reflexivity.
Qed.

(** What the handler does once [scrape] has returned a success. *)
Lemma on_scrape_click_success now url fetcher_type selector selector_type options
    data error cs w :
  url <> [] -> selector <> [] ->
  (forall w0, scrape lib url fetcher_type selector selector_type options w0 =
              (inr (true, data, error), after_calls w0 cs)) ->
  on_scrape_click lib now url fetcher_type selector selector_type options w =
  (inr tt,
   {| session :=
        map_history (fun h =>
          take 20
            ({| h_url := if (50 <? length url)%nat then take 50 url ++ lit "..." else url;
                h_fetcher := fetcher_type;
                h_selector :=
                  if (30 <? length selector)%nat
                  then take 30 selector ++ lit "..." else selector;
                h_count := length data;
                h_status := check_mark;
                h_time := now |} :: h)) (set_results data (session w));
      calls := calls w ++ cs;
      ui := ui w ++ [St_spinner (lit "Scraping with " ++ fetcher_type ++ lit "...");
                     St_success (check_mark ++ lit " Found " ++ str_of_nat (length data)
                                   ++ lit " items!")] |}).
Proof.
  intros Hu Hs Hrun. unfold on_scrape_click.
  apply truthy_true in Hu, Hs. rewrite Hu, Hs. cbn [negb].
  unfold bind at 1. unfold show at 1. unfold bind at 1. rewrite Hrun.
  unfold bind, show, modify_session. rewrite add_to_history_run. unfold after_calls.
  cbn [session calls ui]. rewrite <- app_assoc. reflexivity.
Qed.

(** The value [scrape]'s [try] block ends with, in terms of what the
    library answers. *)
Lemma scrape_body_value url fetcher_type selector selector_type options w :
  (scrape_body lib url fetcher_type selector selector_type options w).1 =
  match fetched lib url fetcher_type options with
  | None => inr (false, [], lit "Unknown fetcher type: " ++ fetcher_type)
  | Some (inl e) => inl e
  | Some (inr pg) =>
      match queried pg selector selector_type with
      | inl e => inl e
      | inr elements => inr (true, normalize selector elements, [])
      end
  end.
Proof.
  unfold scrape_body, fetched, queried.
  destruct (str_eqb fetcher_type (lit "Fetcher"));
    [|destruct (str_eqb fetcher_type (lit "StealthyFetcher"));
      [|destruct (str_eqb fetcher_type (lit "DynamicFetcher"))]].
  4: reflexivity.
  all: match goal with
       | |- context [invoke _ ?x] => destruct x as [e|pg]
       end; [reflexivity|].
  all: rewrite bind_invoke_return.
  all: destruct (str_eqb selector_type (lit "CSS")).
  all: match goal with
       | |- context [invoke _ ?x] => destruct x as [e|els]
       end; reflexivity.
Qed.

(** The [try] block raises exactly when the fetch or the query raises. *)
Lemma scrape_body_raises url fetcher_type selector selector_type options w exc :
  (scrape_body lib url fetcher_type selector selector_type options w).1 = inl exc
  <-> (fetched lib url fetcher_type options = Some (inl exc)
       \/ exists pg, fetched lib url fetcher_type options = Some (inr pg)
                     /\ queried pg selector selector_type = inl exc).
Proof.
  rewrite scrape_body_value.
  destruct (fetched lib url fetcher_type options) as [[e|pg]|].
  - split.
    + intros [= ->]. left. reflexivity.
    + intros [[= ->]|(pg & [=] & _)]. reflexivity.
  - destruct (queried pg selector selector_type) as [e|els] eqn:Q.
    + split.
      * intros [= ->]. right. exists pg. split; [reflexivity|exact Q].
      * intros [[=]|(pg' & [= <-] & Q')]. rewrite Q in Q'. injection Q' as ->. reflexivity.
    + split; [discriminate|].
      intros [[=]|(pg' & [= <-] & Q')]. rewrite Q in Q'. discriminate.
  - split; [discriminate|]. intros [[=]|(pg & [=] & _)].
Qed.

(** C5 (as the code has it): when the fetch or the query raises [exc],
    [scrape] returns [(False, [], str(exc))]; the handler then leaves
    [st.session_state.results] as it was, shows the error message
    [str(exc)] unchanged after the prefix of [st.error], and puts a
    history entry with count 0 and the failure glyph at the front of the
    history. *)
Theorem C5_failure_keeps_results now url fetcher_type selector selector_type
    options exc :
  (fetched lib url fetcher_type options = Some (inl exc)
   \/ exists pg, fetched lib url fetcher_type options = Some (inr pg)
                 /\ queried pg selector selector_type = inl exc) ->
  forall w,
    (exists cs,
       scrape lib url fetcher_type selector selector_type options w =
       (inr (false, [], exn_str exc), after_calls w cs))
    /\ (url <> [] -> selector <> [] ->
        exists w',
          on_scrape_click lib now url fetcher_type selector selector_type options w =
            (inr tt, w')
          /\ results (session w') = results (session w)
          /\ ui w' =
               ui w ++ [St_spinner (lit "Scraping with " ++ fetcher_type ++ lit "...");
                        St_error (cross_mark ++ lit " Error: " ++ exn_str exc)]
          /\ history (session w') =
               take 20
                 ({| h_url :=
                       if (50 <? length url)%nat then take 50 url ++ lit "..." else url;
                     h_fetcher := fetcher_type;
                     h_selector :=
                       if (30 <? length selector)%nat
                       then take 30 selector ++ lit "..." else selector;
                     h_count := 0;
                     h_status := cross_mark;
                     h_time := now |} :: history (session w))).
Proof.
  intros Hraise.
  apply (scrape_body_raises url fetcher_type selector selector_type options
           initial_world) in Hraise.
  destruct (scrape_body_uniform url fetcher_type selector selector_type options)
    as (r & cs & Hbody).
  rewrite Hbody in Hraise. cbn in Hraise. subst r.
  assert (forall w1, scrape lib url fetcher_type selector selector_type options w1 =
                     (inr (false, [], exn_str exc), after_calls w1 cs)) as Hrun.
  { intros w1. apply scrape_of_body_raise, Hbody. }
  intros w. split; [exists cs; apply Hrun|].
  intros Hu Hs. eexists. split.
  - apply (on_scrape_click_failure now _ _ _ _ _ _ _ cs w Hu Hs Hrun).
  - repeat split.
Qed.

(** C8: when [scrape] succeeds with the list [data], the handler sets
    [st.session_state.results] to [data] whatever the session held before,
    and puts a success entry whose count is [len(data)] at the front of the
    history. *)
Theorem C8_success_replaces_results now url fetcher_type selector selector_type
    options data error w0 :
  url <> [] -> selector <> [] ->
  (scrape lib url fetcher_type selector selector_type options w0).1 =
    inr (true, data, error) ->
  forall w, exists w',
    on_scrape_click lib now url fetcher_type selector selector_type options w =
      (inr tt, w')
    /\ results (session w') = Some data
    /\ last_url (session w') = last_url (session w)
    /\ history (session w') =
         take 20
           ({| h_url := if (50 <? length url)%nat then take 50 url ++ lit "..." else url;
               h_fetcher := fetcher_type;
               h_selector :=
                 if (30 <? length selector)%nat
                 then take 30 selector ++ lit "..." else selector;
               h_count := length data;
               h_status := check_mark;
               h_time := now |} :: history (session w)).
Proof.
  intros Hu Hs Hok.
  destruct (scrape_uniform url fetcher_type selector selector_type options)
    as (r & cs & Hrun).
  rewrite Hrun in Hok. cbn in Hok. injection Hok as ->.
  intros w. eexists. split.
  - apply (on_scrape_click_success now _ _ _ _ _ _ _ cs w Hu Hs Hrun).
  - repeat split.
Qed.
End ScriptProperties.

Lemma C9_unknown_fetcher_type_witness :
  scrape sample_lib (lit "https://example.org") (lit "Requests") (lit "p::text")
    (lit "CSS") ∅ sample_world =
    (inr (false, [], lit "Unknown fetcher type: " ++ lit "Requests"), sample_world)
  /\ calls (scrape sample_lib (lit "https://example.org") (lit "Requests") (lit "p::text")
              (lit "CSS") ∅ sample_world).2 = calls sample_world.
Proof.
  apply (C9_unknown_fetcher_type sample_lib (lit "https://example.org") (lit "Requests")
           (lit "p::text") (lit "CSS") ∅ sample_world);
    vm_compute; discriminate.
Defined.

Lemma C5_failure_keeps_results_witness :
  (exists cs,
     scrape sample_lib (lit "https://example.org") (lit "StealthyFetcher") (lit "p::text")
       (lit "CSS") ∅ sample_world =
     (inr (false, [], lit "Page.goto: Timeout 30000ms exceeded"),
      after_calls sample_world cs))
  /\ exists w',
       on_scrape_click sample_lib (lit "12:00:21") (lit "https://example.org")
         (lit "StealthyFetcher") (lit "p::text") (lit "CSS") ∅ sample_world = (inr tt, w')
       /\ results (session w') = results (session sample_world)
       /\ ui w' =
            ui sample_world ++
            [St_spinner (lit "Scraping with " ++ lit "StealthyFetcher" ++ lit "...");
             St_error (cross_mark ++ lit " Error: "
                         ++ lit "Page.goto: Timeout 30000ms exceeded")]
       /\ history (session w') =
            take 20
              ({| h_url := lit "https://example.org";
                  h_fetcher := lit "StealthyFetcher";
                  h_selector := lit "p::text";
                  h_count := 0;
                  h_status := cross_mark;
                  h_time := lit "12:00:21" |} :: history (session sample_world)).
Proof.
  destruct (C5_failure_keeps_results sample_lib (lit "12:00:21") (lit "https://example.org")
              (lit "StealthyFetcher") (lit "p::text") (lit "CSS") ∅
              (Exn (lit "Page.goto: Timeout 30000ms exceeded")))
    with (w := sample_world) as [H1 H2].
  - left. vm_compute. reflexivity.
  - split; [exact H1|]. apply H2; vm_compute; discriminate.
Defined.

(** C5 as the specification words it: a session that holds the records of
    an earlier run still holds them after a run whose fetch raised, so the
    result state is not empty. *)
Lemma C5_stale_results_counterexample :
  fetched sample_lib (lit "https://example.org") (lit "StealthyFetcher") ∅
    = Some (inl (Exn (lit "Page.goto: Timeout 30000ms exceeded")))
  /\ results (session
       (on_scrape_click sample_lib (lit "12:00:21") (lit "https://example.org")
          (lit "StealthyFetcher") (lit "p::text") (lit "CSS") ∅ sample_world).2)
     = Some [[(lit "text", lit "old")]]
  /\ ~ (results (session
          (on_scrape_click sample_lib (lit "12:00:21") (lit "https://example.org")
             (lit "StealthyFetcher") (lit "p::text") (lit "CSS") ∅ sample_world).2)
          = None
        \/ results (session
             (on_scrape_click sample_lib (lit "12:00:21") (lit "https://example.org")
                (lit "StealthyFetcher") (lit "p::text") (lit "CSS") ∅ sample_world).2)
           = Some []).
Proof.
  split; [vm_compute; reflexivity|].
  split; [vm_compute; reflexivity|].
  vm_compute. intros [H|H]; discriminate H.
Qed.

Lemma C8_success_replaces_results_witness :
  exists w',
    on_scrape_click sample_lib (lit "12:00:21") (lit "https://example.org")
      (lit "Fetcher") (lit "p::text") (lit "CSS") ∅ sample_world = (inr tt, w')
    /\ results (session w') = Some [[(lit "text", lit "Hello")]; [(lit "text", lit "world")]]
    /\ last_url (session w') = last_url (session sample_world)
    /\ history (session w') =
         take 20
           ({| h_url := lit "https://example.org";
               h_fetcher := lit "Fetcher";
               h_selector := lit "p::text";
               h_count := 2;
               h_status := check_mark;
               h_time := lit "12:00:21" |} :: history (session sample_world)).
Proof.
  apply (C8_success_replaces_results sample_lib (lit "12:00:21") (lit "https://example.org")
           (lit "Fetcher") (lit "p::text") (lit "CSS") ∅
           [[(lit "text", lit "Hello")]; [(lit "text", lit "world")]] [] initial_world).
  - vm_compute. discriminate.
  - vm_compute. discriminate.
  - vm_compute. reflexivity.
Defined.

(** ** UTF-8 *)

Lemma div_mod_64 c : c = 64 * (c / 64) + c mod 64 /\ c mod 64 < 64.
Proof. split; [apply N.div_mod; discriminate|apply N.mod_lt; discriminate]. Qed.

Lemma div_4096 c : c / 4096 = c / 64 / 64.
Proof. rewrite N.Div0.div_div. reflexivity. Qed.

Lemma div_262144 c : c / 262144 = c / 64 / 64 / 64.
Proof. rewrite !N.Div0.div_div. reflexivity. Qed.

(** Settle the comparisons of the goal that linear arithmetic decides. *)
Ltac decide_tests :=
  repeat match goal with
         | |- context [?x <? ?y] =>
             first [ replace (x <? y) with true by (symmetry; apply N.ltb_lt; lia)
                   | replace (x <? y) with false by (symmetry; apply N.ltb_ge; lia) ]
         | |- context [?x <=? ?y] =>
             first [ replace (x <=? y) with true by (symmetry; apply N.leb_le; lia)
                   | replace (x <=? y) with false by (symmetry; apply N.leb_gt; lia) ]
         | |- context [?x =? ?y] =>
             first [ replace (x =? y) with true by (symmetry; apply N.eqb_eq; lia)
                   | replace (x =? y) with false by (symmetry; apply N.eqb_neq; lia) ]
         end.

Lemma utf8_decode_encode_char c b t :
  utf8_encode_char c = Some b ->
  utf8_decode (b ++ t) = cons c <$> utf8_decode t.
Proof.
  unfold utf8_encode_char.
  rewrite div_4096, div_262144.
  destruct (div_mod_64 c) as [E1 B1].
  destruct (div_mod_64 (c / 64)) as [E2 B2].
  destruct (div_mod_64 (c / 64 / 64)) as [E3 B3].
  revert E1 B1 E2 B2 E3 B3.
  generalize (c mod 64), ((c / 64) mod 64), ((c / 64 / 64) mod 64).
  generalize (c / 64 / 64 / 64). generalize (c / 64 / 64). generalize (c / 64).
  intros q1 q2 q3 r1 r2 r3 E1 B1 E2 B2 E3 B3.
  destruct (N.ltb_spec c 0x80).
  { intros [= <-]. cbn [app utf8_decode]. decide_tests. reflexivity. }
  destruct (N.ltb_spec c 0x800).
  { intros [= <-]. cbn [app utf8_decode]. unfold is_cont. decide_tests. cbn [andb].
    f_equal. f_equal. lia. }
  destruct (N.ltb_spec c 0x10000).
  { destruct (N.leb_spec 0xD800 c), (N.leb_spec c 0xDFFF); cbn [andb];
      intros [= <-]; cbn [app utf8_decode]; unfold is_cont; decide_tests; cbn [andb].
    all: f_equal; f_equal; lia. }
  destruct (N.ltb_spec c 0x110000); [|discriminate].
  intros [= <-]. cbn [app utf8_decode]. unfold is_cont. decide_tests. cbn [andb].
  f_equal. f_equal. lia.
Qed.

(** Decoding undoes encoding. *)
Lemma utf8_decode_encode s b : utf8_encode s = Some b -> utf8_decode b = Some s.
Proof.
  revert b. induction s as [|c s IH]; intros b; cbn [utf8_encode].
  - intros [= <-]. reflexivity.
  - destruct (utf8_encode_char c) as [bc|] eqn:Ec; [|discriminate].
    destruct (utf8_encode s) as [bs|]; [|discriminate].
    intros [= <-]. rewrite (utf8_decode_encode_char _ _ _ Ec), (IH bs eq_refl).
    reflexivity.
Qed.

Lemma utf8_encode_char_scalar c :
  is_Some (utf8_encode_char c) <-> is_scalar c = true.
Proof.
  unfold utf8_encode_char, is_scalar.
  destruct (N.ltb_spec c 0x80), (N.ltb_spec c 0x800), (N.ltb_spec c 0x10000),
    (N.leb_spec 0xD800 c), (N.leb_spec c 0xDFFF), (N.ltb_spec c 0x110000),
    (N.ltb_spec c 0xD800), (N.ltb_spec 0xDFFF c); try lia; cbn;
    split; intros Hx; try reflexivity; try discriminate Hx; try (eexists; reflexivity);
    destruct Hx as [? [=]].
Qed.

(** Encoding succeeds exactly on strings of scalar values. *)
Lemma utf8_encode_scalar s : is_Some (utf8_encode s) <-> str_encodable s.
Proof.
  unfold str_encodable. induction s as [|c s IH]; cbn [utf8_encode].
  - split; [constructor|eexists; reflexivity].
  - rewrite Forall_cons, <- IH, <- utf8_encode_char_scalar.
    destruct (utf8_encode_char c), (utf8_encode s); split; intros Hx.
    all: try (split; eexists; reflexivity).
    all: try (eexists; reflexivity).
    all: try (destruct Hx as [? [=]]).
    all: destruct Hx as [[? Hc] [? Hs]]; discriminate.
Qed.

(** ** Reading back what [json.dumps] wrote *)

Lemma scanstring_plain c t :
  c <> 0x22 -> c <> 0x5C -> 0x20 <= c ->
  scanstring (c :: t) = '(r, rest) ← scanstring t; Some (c :: r, rest).
Proof.
  intros H1 H2 H3. cbn [scanstring].
  apply N.eqb_neq in H1, H2. apply N.ltb_ge in H3. rewrite H1, H2, H3. reflexivity.
Qed.

Lemma scanstring_control c t s rest :
  c < 0x20 ->
  scanstring t = Some (s, rest) ->
  scanstring (escape_char c ++ t) = Some (c :: s, rest).
Proof.
  intros Hc Ht.
  destruct c as [|p]; [cbn; rewrite Ht; reflexivity|].
  repeat match goal with
         | q : positive |- _ => destruct q; try lia
         end; cbn; rewrite Ht; reflexivity.
Qed.

(** One escaped character is read back as the character. *)
Lemma scanstring_escape_char c t s rest :
  scanstring t = Some (s, rest) ->
  scanstring (escape_char c ++ t) = Some (c :: s, rest).
Proof.
  intros Ht. destruct (N.ltb_spec c 0x20) as [Hc|Hc].
  { apply scanstring_control; assumption. }
  unfold escape_char.
  destruct (N.eqb_spec c 0x5C) as [->|H1]; [cbn; rewrite Ht; reflexivity|].
  destruct (N.eqb_spec c 0x22) as [->|H2]; [cbn; rewrite Ht; reflexivity|].
  decide_tests. cbn [app].
  rewrite scanstring_plain, Ht by assumption. reflexivity.
Qed.

(** A string written by [encode_basestring] is read back by [scanstring]. *)
Lemma scanstring_escape s rest :
  scanstring (flat_map escape_char s ++ c_quote :: rest) = Some (s, rest).
Proof.
  induction s as [|c s IH]; [reflexivity|].
  cbn [flat_map]. rewrite <- app_assoc. apply scanstring_escape_char, IH.
Qed.

Lemma skip_ws_stop c s : is_json_ws c = false -> skip_ws (c :: s) = c :: s.
Proof. intros H. cbn [skip_ws]. rewrite H. reflexivity. Qed.

Lemma skip_ws_spaces n t : skip_ws (replicate n c_space ++ t) = skip_ws t.
Proof. induction n as [|n IH]; [reflexivity|exact IH]. Qed.

Lemma skip_ws_newline_indent level t : skip_ws (newline_indent level ++ t) = skip_ws t.
Proof. unfold newline_indent. cbn [app skip_ws]. apply skip_ws_spaces. Qed.

(** *** The unfolding equations of the decoder *)

Lemma scan_once_string fuel s :
  scan_once (S fuel) (c_quote :: s) = '(v, rest) ← scanstring s; Some (JStr v, rest).
Proof. reflexivity. Qed.

Lemma scan_once_lbrace fuel s :
  scan_once (S fuel) (c_lbrace :: s) =
  match skip_ws s with
  | [] => None
  | d :: s2 =>
      if d =? 0x7D then Some (JObj [], s2)
      else if d =? 0x22 then
        '(pairs, rest) ← object_members fuel s2; Some (JObj (dict_of_pairs pairs), rest)
      else None
  end.
Proof. reflexivity. Qed.

Lemma scan_once_lbracket fuel s :
  scan_once (S fuel) (c_lbracket :: s) =
  match skip_ws s with
  | [] => None
  | d :: s2 =>
      if d =? 0x5D then Some (JArr [], s2)
      else '(items, rest) ← array_items fuel (d :: s2); Some (JArr items, rest)
  end.
Proof. reflexivity. Qed.

Lemma object_members_S fuel s :
  object_members (S fuel) s =
  '(key, s1) ← scanstring s;
  match skip_ws s1 with
  | [] => None
  | c :: s2 =>
      if c =? 0x3A then
        '(value, s3) ← scan_once fuel (skip_ws s2);
        match skip_ws s3 with
        | [] => None
        | d :: s4 =>
            if d =? 0x7D then Some ([(key, value)], s4)
            else if d =? 0x2C then
              match skip_ws s4 with
              | [] => None
              | q :: s5 =>
                  if q =? 0x22 then
                    '(more, rest) ← object_members fuel s5;
                    Some ((key, value) :: more, rest)
                  else None
              end
            else None
        end
      else None
  end.
Proof. reflexivity. Qed.

Lemma array_items_S fuel s :
  array_items (S fuel) s =
  '(value, s1) ← scan_once fuel s;
  match skip_ws s1 with
  | [] => None
  | d :: s2 =>
      if d =? 0x5D then Some ([value], s2)
      else if d =? 0x2C then
        '(more, rest) ← array_items fuel (skip_ws s2); Some (value :: more, rest)
      else None
  end.
Proof. reflexivity. Qed.

Lemma join_cons sep p ps :
  join sep (p :: ps) = p ++ match ps with [] => [] | _ :: _ => sep ++ join sep ps end.
Proof. destruct ps; cbn [join]; [rewrite app_nil_r|]; reflexivity. Qed.

Lemma encode_member_shape kv t :
  encode_member kv ++ t =
  c_quote :: flat_map escape_char kv.1
    ++ c_quote :: c_colon :: c_space :: c_quote :: flat_map escape_char kv.2
    ++ c_quote :: t.
Proof.
  unfold encode_member, encode_basestring. cbn [app].
  repeat (rewrite <- app_assoc; cbn [app]). reflexivity.
Qed.

(** The members of a non-empty dictionary, as [_iterencode_dict] writes them
    at depth [level], are read back by [JSONObject]. *)
Lemma object_members_dumped level ms : forall m rest fuel,
  (length (join (c_comma :: newline_indent (S level)) (encode_member <$> (m :: ms))
           ++ newline_indent level ++ c_rbrace :: rest) <= fuel)%nat ->
  exists t,
    join (c_comma :: newline_indent (S level)) (encode_member <$> (m :: ms))
      ++ newline_indent level ++ c_rbrace :: rest = c_quote :: t
    /\ object_members fuel t =
       Some ((fun kv : str * str => (kv.1, JStr kv.2)) <$> (m :: ms), rest).
Proof.
  induction ms as [|m' ms IH]; intros m rest fuel Hfuel.
  - revert Hfuel. cbn [fmap list_fmap join]. rewrite encode_member_shape.
    intros Hfuel. eexists. split; [reflexivity|].
    destruct fuel as [|fuel]; [cbn in Hfuel; lia|].
    rewrite object_members_S, scanstring_escape. cbn [mbind option_bind].
    rewrite skip_ws_stop by reflexivity.
    change (c_colon =? 0x3A) with true. cbv iota.
    change (skip_ws (c_space :: c_quote :: ?x)) with (c_quote :: x).
    destruct fuel as [|fuel];
      [revert Hfuel; repeat (rewrite length_app || rewrite length_cons); lia|].
    rewrite scan_once_string, scanstring_escape. cbn [mbind option_bind].
    rewrite skip_ws_newline_indent. reflexivity.
  - revert Hfuel. rewrite fmap_cons, join_cons. rewrite fmap_cons.
    rewrite <- !app_assoc. rewrite encode_member_shape.
    intros Hfuel. eexists. split; [reflexivity|].
    destruct fuel as [|fuel]; [cbn in Hfuel; lia|].
    rewrite object_members_S, scanstring_escape. cbn [mbind option_bind].
    rewrite skip_ws_stop by reflexivity.
    change (c_colon =? 0x3A) with true. cbv iota.
    change (skip_ws (c_space :: c_quote :: ?x)) with (c_quote :: x).
    destruct fuel as [|fuel];
      [revert Hfuel; repeat (rewrite length_app || rewrite length_cons); lia|].
    rewrite scan_once_string, scanstring_escape. cbn [mbind option_bind].
    cbn [app]. rewrite skip_ws_stop by reflexivity.
    change (c_comma =? 0x7D) with false. change (c_comma =? 0x2C) with true. cbv iota.
    rewrite skip_ws_newline_indent.
    destruct (IH m' rest (S fuel)) as (t & Et & Ht).
    { rewrite fmap_cons. revert Hfuel.
      repeat (rewrite length_app || rewrite length_cons). lia. }
    rewrite fmap_cons in Et. rewrite Et.
    rewrite skip_ws_stop by reflexivity.
    change (c_quote =? 0x22) with true. cbv iota.
    rewrite Ht. reflexivity.
Qed.

Lemma dict_set_fresh d k v : k ∉ d.*1 -> dict_set d k v = d ++ [(k, v)].
Proof.
  induction d as [|[k' v'] d IH]; intros Hk; [reflexivity|].
  cbn [dict_set]. rewrite fmap_cons in Hk. apply not_elem_of_cons in Hk as [Hne Hk].
  replace (str_eqb k' k) with false by (symmetry; apply str_eqb_false; cbn in Hne; congruence).
  rewrite IH by assumption. reflexivity.
Qed.

Lemma fold_dict_set ps : forall acc,
  NoDup (acc ++ ps).*1 ->
  fold_left (fun d kv => dict_set d kv.1 kv.2) ps acc = acc ++ ps.
Proof.
  induction ps as [|[k v] ps IH]; intros acc Hnd; cbn [fold_left].
  - rewrite app_nil_r. reflexivity.
  - cbn [fst snd]. rewrite dict_set_fresh.
    + rewrite IH; rewrite <- app_assoc; [reflexivity|exact Hnd].
    + rewrite fmap_app, fmap_cons in Hnd. apply NoDup_app in Hnd as (_ & Hdis & _).
      intros Hin. apply (Hdis k Hin). left.
Qed.

(** Pairs with distinct keys make the dictionary that lists them in order. *)
Lemma dict_of_pairs_NoDup ps : NoDup ps.*1 -> dict_of_pairs ps = ps.
Proof. intros H. unfold dict_of_pairs. rewrite fold_dict_set; [reflexivity|exact H]. Qed.

Lemma keys_json_pairs (r : record) :
  ((fun kv : str * str => (kv.1, JStr kv.2)) <$> r).*1 = keys r.
Proof. unfold keys. rewrite <- list_fmap_compose. reflexivity. Qed.

Lemma iterencode_dict_head level r :
  exists t, iterencode_dict level r = c_lbrace :: t.
Proof. destruct r; eexists; reflexivity. Qed.

Lemma skip_ws_dicts sep level d ds t :
  skip_ws (join sep (iterencode_dict level <$> (d :: ds)) ++ t) =
  join sep (iterencode_dict level <$> (d :: ds)) ++ t.
Proof.
  rewrite fmap_cons, join_cons.
  destruct (iterencode_dict_head level d) as [x ->].
  rewrite <- !app_assoc. cbn [app]. apply skip_ws_stop. reflexivity.
Qed.

(** A dictionary written at depth [level] is read back by [scan_once]. *)
Lemma scan_once_dict level r rest fuel :
  NoDup (keys r) ->
  (length (iterencode_dict level r ++ rest) <= fuel)%nat ->
  scan_once fuel (iterencode_dict level r ++ rest) =
  Some (JObj ((fun kv : str * str => (kv.1, JStr kv.2)) <$> r), rest).
Proof.
  intros Hnd Hfuel. destruct r as [|m ms].
  - destruct fuel as [|fuel]; [cbn in Hfuel; lia|]. reflexivity.
  - revert Hfuel. unfold iterencode_dict. cbn [app]. rewrite <- !app_assoc. cbn [app].
    intros Hfuel.
    destruct fuel as [|fuel]; [cbn in Hfuel; lia|].
    rewrite scan_once_lbrace, skip_ws_newline_indent.
    destruct (object_members_dumped level ms m rest fuel) as (t & Et & Ht).
    { revert Hfuel. repeat (rewrite length_app || rewrite length_cons). lia. }
    rewrite Et, skip_ws_stop by reflexivity.
    change (c_quote =? 0x7D) with false. change (c_quote =? 0x22) with true. cbv iota.
    rewrite Ht. cbn [mbind option_bind].
    rewrite dict_of_pairs_NoDup; [reflexivity|].
    rewrite keys_json_pairs. exact Hnd.
Qed.

(** The items of a non-empty list, as [_iterencode_list] writes them at
    depth [level], are read back by [JSONArray]. *)
Lemma array_items_dumped level ds : forall d rest fuel,
  Forall (fun r => NoDup (keys r)) (d :: ds) ->
  (length (join (c_comma :: newline_indent (S level))
             (iterencode_dict (S level) <$> (d :: ds))
           ++ newline_indent level ++ c_rbracket :: rest) < fuel)%nat ->
  array_items fuel
    (join (c_comma :: newline_indent (S level)) (iterencode_dict (S level) <$> (d :: ds))
     ++ newline_indent level ++ c_rbracket :: rest) =
  Some ((fun r : record => JObj ((fun kv : str * str => (kv.1, JStr kv.2)) <$> r))
          <$> (d :: ds), rest).
Proof.
  induction ds as [|d' ds IH]; intros d rest fuel Hnd Hfuel.
  - revert Hfuel. cbn [fmap list_fmap join]. intros Hfuel.
    destruct (iterencode_dict_head (S level) d) as [t Et].
    destruct fuel as [|fuel]; [rewrite Et in Hfuel; cbn in Hfuel; lia|].
    rewrite array_items_S, scan_once_dict.
    + cbn [mbind option_bind]. rewrite skip_ws_newline_indent. reflexivity.
    + apply Forall_cons in Hnd as [Hd _]. exact Hd.
    + revert Hfuel. repeat (rewrite length_app || rewrite length_cons). lia.
  - revert Hfuel. rewrite fmap_cons, join_cons, fmap_cons, <- !app_assoc.
    intros Hfuel.
    destruct (iterencode_dict_head (S level) d) as [t Et].
    destruct fuel as [|fuel]; [rewrite Et in Hfuel; cbn in Hfuel; lia|].
    apply Forall_cons in Hnd as [Hd Hnd].
    rewrite array_items_S, scan_once_dict.
    + cbn [mbind option_bind]. cbn [app]. rewrite skip_ws_stop by reflexivity.
      change (c_comma =? 0x5D) with false. change (c_comma =? 0x2C) with true. cbv iota.
      rewrite skip_ws_newline_indent, <- fmap_cons, skip_ws_dicts.
      rewrite IH; [reflexivity|exact Hnd|].
      revert Hfuel. rewrite Et, fmap_cons.
      repeat (rewrite length_app || rewrite length_cons). lia.
    + exact Hd.
    + revert Hfuel. repeat (rewrite length_app || rewrite length_cons). lia.
Qed.

(** What [json.dumps] wrote is read back as the value it was given. *)
Lemma scan_once_json_dumps data :
  dicts data ->
  scan_once (S (length (json_dumps data))) (skip_ws (json_dumps data)) =
  Some (json_of_data data, []).
Proof.
  intros Hnd. unfold json_dumps, json_of_data. destruct data as [|d ds].
  - reflexivity.
  - unfold iterencode_list. rewrite skip_ws_stop by reflexivity.
    rewrite scan_once_lbracket, skip_ws_newline_indent, skip_ws_dicts.
    pose proof (array_items_dumped 0 ds d [] (length
      (c_lbracket :: newline_indent 1
       ++ join (c_comma :: newline_indent 1) (iterencode_dict 1 <$> d :: ds)
       ++ newline_indent 0 ++ [c_rbracket])) Hnd) as Hitems.
    revert Hitems. rewrite fmap_cons, join_cons.
    destruct (iterencode_dict_head 1 d) as [t ->].
    rewrite <- !app_assoc. cbn [app]. intros Hitems.
    change (c_lbrace =? 0x5D) with false. cbv iota.
    rewrite Hitems; [reflexivity|].
    repeat (rewrite length_app || rewrite length_cons). lia.
Qed.

(** ** The JSON export and its round trip *)

Lemma escape_char_encodable c : is_scalar c = true -> str_encodable (escape_char c).
Proof.
  intros Hc. unfold str_encodable.
  destruct (N.ltb_spec c 0x20) as [Hlt|Hge].
  { destruct c as [|p]; [repeat constructor|].
    repeat match goal with
           | q : positive |- _ => destruct q; try lia
           end; repeat constructor. }
  unfold escape_char.
  destruct (N.eqb_spec c 0x5C) as [->|H1]; [repeat constructor|].
  destruct (N.eqb_spec c 0x22) as [->|H2]; [repeat constructor|].
  decide_tests. repeat constructor. exact Hc.
Qed.

Lemma flat_map_escape_encodable s :
  str_encodable s -> str_encodable (flat_map escape_char s).
Proof.
  unfold str_encodable. induction 1 as [|c s Hc _ IH]; cbn [flat_map]; [constructor|].
  apply Forall_app. split; [apply escape_char_encodable, Hc|exact IH].
Qed.

Lemma encode_basestring_encodable s :
  str_encodable s -> str_encodable (encode_basestring s).
Proof.
  intros Hs. unfold encode_basestring. constructor; [reflexivity|].
  apply Forall_app. split; [apply flat_map_escape_encodable, Hs|].
  repeat constructor.
Qed.

Lemma newline_indent_encodable level : str_encodable (newline_indent level).
Proof.
  unfold newline_indent. constructor; [reflexivity|].
  apply Forall_replicate. reflexivity.
Qed.

Lemma join_encodable sep parts :
  str_encodable sep -> Forall str_encodable parts -> str_encodable (join sep parts).
Proof.
  intros Hsep. induction 1 as [|p ps Hp Hps IH]; [constructor|].
  rewrite join_cons. apply Forall_app. split; [exact Hp|].
  destruct ps; [constructor|]. apply Forall_app. split; [exact Hsep|exact IH].
Qed.

Lemma iterencode_dict_encodable level r :
  Forall (fun kv : str * str => str_encodable kv.1 /\ str_encodable kv.2) r ->
  str_encodable (iterencode_dict level r).
Proof.
  intros Hr. destruct r as [|m ms]; [repeat constructor|].
  unfold iterencode_dict. constructor; [reflexivity|].
  repeat (apply Forall_app; split).
  - apply newline_indent_encodable.
  - apply join_encodable.
    + constructor; [reflexivity|apply newline_indent_encodable].
    + apply Forall_fmap. eapply Forall_impl; [exact Hr|].
      intros [k v] [Hk Hv]. unfold encode_member. cbn [fst snd compose].
      repeat (apply Forall_app; split).
      * apply encode_basestring_encodable, Hk.
      * repeat constructor.
      * apply encode_basestring_encodable, Hv.
  - apply newline_indent_encodable.
  - repeat constructor.
Qed.

(** The text [json.dumps] writes for encodable data is encodable. *)
Lemma json_dumps_encodable data :
  data_encodable data -> str_encodable (json_dumps data).
Proof.
  intros Hd. unfold json_dumps. destruct data as [|d ds]; [repeat constructor|].
  unfold iterencode_list. constructor; [reflexivity|].
  repeat (apply Forall_app; split).
  - apply newline_indent_encodable.
  - apply join_encodable.
    + constructor; [reflexivity|apply newline_indent_encodable].
    + apply Forall_fmap. eapply Forall_impl; [exact Hd|].
      intros r Hr. apply iterencode_dict_encodable, Hr.
  - apply newline_indent_encodable.
  - repeat constructor.
Qed.

(** [json.loads] takes what [to_json] wrote for UTF-8. *)
Lemma to_json_detects_utf8 data b : to_json data = Some b -> detects_utf8 b = true.
Proof.
  unfold to_json, json_dumps. destruct data as [|d ds].
  - intros [= <-]. reflexivity.
  - unfold iterencode_list, newline_indent. cbn [app utf8_encode].
    change (utf8_encode_char c_lbracket) with (Some [c_lbracket]).
    change (utf8_encode_char c_newline) with (Some [c_newline]).
    match goal with |- context [utf8_encode ?s] => destruct (utf8_encode s) as [b'|] end;
      [|discriminate].
    intros [= <-]. destruct b' as [|x1 [|x2 x3]]; reflexivity.
Qed.

Lemma escape_char_encodable_inv c : str_encodable (escape_char c) -> is_scalar c = true.
Proof.
  destruct (N.ltb_spec c 0x20) as [Hc|Hc].
  { intros _. unfold is_scalar. decide_tests. reflexivity. }
  unfold escape_char.
  destruct (N.eqb_spec c 0x5C) as [->|H1]; [reflexivity|].
  destruct (N.eqb_spec c 0x22) as [->|H2]; [reflexivity|].
  decide_tests. intros H. apply Forall_cons in H as [H _]. exact H.
Qed.

Lemma flat_map_escape_encodable_inv s :
  str_encodable (flat_map escape_char s) -> str_encodable s.
Proof.
  unfold str_encodable. induction s as [|c s IH]; cbn [flat_map]; [constructor|].
  intros H. apply Forall_app in H as [Hc Hs].
  constructor; [apply escape_char_encodable_inv, Hc|apply IH, Hs].
Qed.

Lemma encode_basestring_encodable_inv s :
  str_encodable (encode_basestring s) -> str_encodable s.
Proof.
  unfold encode_basestring. intros H. apply Forall_cons in H as [_ H].
  apply Forall_app in H as [H _]. apply flat_map_escape_encodable_inv, H.
Qed.

Lemma join_encodable_inv sep parts :
  str_encodable (join sep parts) -> Forall str_encodable parts.
Proof.
  induction parts as [|p ps IH]; [constructor|].
  rewrite join_cons. intros H. apply Forall_app in H as [Hp H].
  constructor; [exact Hp|]. destruct ps as [|q ps]; [constructor|].
  apply Forall_app in H as [_ H]. apply IH, H.
Qed.

Lemma iterencode_dict_encodable_inv level r :
  str_encodable (iterencode_dict level r) ->
  Forall (fun kv : str * str => str_encodable kv.1 /\ str_encodable kv.2) r.
Proof.
  destruct r as [|m ms]; [constructor|].
  unfold iterencode_dict. intros H. apply Forall_cons in H as [_ H].
  apply Forall_app in H as [_ H]. apply Forall_app in H as [H _].
  apply join_encodable_inv in H. rewrite Forall_fmap in H.
  eapply Forall_impl; [exact H|].
  intros [k v]. unfold encode_member, compose. cbn [fst snd]. intros Hm.
  apply Forall_app in Hm as [Hk Hm]. apply Forall_app in Hm as [_ Hv].
  split; apply encode_basestring_encodable_inv; assumption.
Qed.

Lemma json_dumps_encodable_inv data :
  str_encodable (json_dumps data) -> data_encodable data.
Proof.
  unfold json_dumps, data_encodable. destruct data as [|d ds]; [constructor|].
  unfold iterencode_list. intros H. apply Forall_cons in H as [_ H].
  apply Forall_app in H as [_ H]. apply Forall_app in H as [H _].
  apply join_encodable_inv in H. rewrite Forall_fmap in H.
  eapply Forall_impl; [exact H|].
  intros r. apply iterencode_dict_encodable_inv.
Qed.

(** [to_json] raises exactly on data that holds a surrogate code point. *)
Lemma to_json_defined data : is_Some (to_json data) <-> data_encodable data.
Proof.
  unfold to_json. rewrite utf8_encode_scalar.
  split; [apply json_dumps_encodable_inv|apply json_dumps_encodable].
Qed.

(** C6 (as the code has it): [to_json] returns bytes exactly for the lists
    of dictionaries whose keys and values hold no surrogate code point, and
    [json.loads] reads these bytes back as a value equal to the list. *)
Theorem C6_json_export_round_trip data :
  dicts data ->
  (is_Some (to_json data) <-> data_encodable data)
  /\ (data_encodable data ->
      exists b, to_json data = Some b /\ json_loads b = Some (json_of_data data)).
Proof.
  intros Hnd. split; [apply to_json_defined|]. intros Henc.
  destruct (proj2 (to_json_defined data) Henc) as [b Hb].
  exists b. split; [exact Hb|].
  unfold json_loads. rewrite (to_json_detects_utf8 data b Hb).
  rewrite (utf8_decode_encode _ _ Hb). cbn [mbind option_bind].
  rewrite (scan_once_json_dumps data Hnd). reflexivity.
Qed.

Lemma C6_json_export_round_trip_witness :
  exists b,
    to_json [[(lit "text", [0x48; 0xE9; 0x22; 0x0A; 0x1F600]); (lit "html", lit "<p>")]; []]
      = Some b
    /\ json_loads b =
       Some (json_of_data
               [[(lit "text", [0x48; 0xE9; 0x22; 0x0A; 0x1F600]); (lit "html", lit "<p>")]; []]).
Proof.
  apply (C6_json_export_round_trip
           [[(lit "text", [0x48; 0xE9; 0x22; 0x0A; 0x1F600]); (lit "html", lit "<p>")]; []]).
  - unfold dicts. refine (bool_decide_unpack _ _). vm_compute. exact I.
  - repeat constructor.
Defined.

(** C6 as the specification words it: for a record whose text holds a lone
    surrogate (a value a Python [str] can hold) [encode("utf-8")] raises, so
    there are no exported bytes to parse back. *)
Lemma C6_surrogate_counterexample :
  dicts surrogate_data
  /\ to_json surrogate_data = None
  /\ ~ (exists b, to_json surrogate_data = Some b
                  /\ json_loads b = Some (json_of_data surrogate_data)).
Proof.
  split; [unfold dicts; refine (bool_decide_unpack _ _); vm_compute; exact I|].
  split; [reflexivity|].
  intros (b & Hb & _). discriminate Hb.
Qed.

(** ** The definitions at work on small inputs *)

Example strip_example : strip (9 :: lit "  Hello world " ++ [0xA0; 0x3000]) = lit "Hello world".
Proof. reflexivity. Qed.

Example contains_example :
  contains (lit "::text") (lit "h1, h2, h3::text") = true
  /\ contains (lit "::attr(") (lit "a::attr") = false.
Proof. split; reflexivity. Qed.

Example str_of_nat_example : str_of_nat 0 = lit "0" /\ str_of_nat 120 = lit "120".
Proof. split; reflexivity. Qed.

Example normalize_text_example :
  normalize (lit "p::text") sample_elements =
  [[(lit "text", lit "Hello")]; [(lit "text", lit "world")]].
Proof. reflexivity. Qed.

Example normalize_plain_example :
  normalize (lit "p") sample_elements =
  [[(lit "text", lit "Hello"); (lit "html", lit "<p>  Hello </p>")];
   [(lit "text", []); (lit "html", lit " world")];
   [(lit "text", []); (lit "html", lit "<br>")]].
Proof. reflexivity. Qed.

(** The text and the bytes of [to_json] for the one record with [text] set
    to U+00E9 followed by a line feed. *)
Example to_json_example :
  json_dumps [[(lit "text", [0xE9; 0x0A])]] =
    lit "[" ++ [c_newline] ++ lit "  {" ++ [c_newline]
    ++ lit "    " ++ [c_quote] ++ lit "text" ++ [c_quote] ++ lit ": "
    ++ [c_quote; 0xE9; c_backslash] ++ lit "n" ++ [c_quote; c_newline]
    ++ lit "  }" ++ [c_newline] ++ lit "]"
  /\ to_json [[(lit "text", [0xE9; 0x0A])]] =
     Some [91; 10; 32; 32; 123; 10; 32; 32; 32; 32; 34; 116; 101; 120; 116; 34; 58; 32;
           34; 195; 169; 92; 110; 34; 10; 32; 32; 125; 10; 93].
Proof. split; reflexivity. Qed.

(** The bytes of a JSON text with a repeated key [a], the escapes for U+00E9
    and a line feed, and an escaped surrogate pair: the later [a] wins and
    the escapes are decoded, as [json.loads] does. *)
Example json_loads_example :
  json_loads
    [91; 123; 34; 97; 34; 58; 32; 34; 120; 34; 44; 32; 34; 98; 34; 58; 32; 91;
          116; 114; 117; 101; 44; 32; 110; 117; 108; 108; 93; 44; 32; 34; 97; 34; 58;
          32; 34; 92; 117; 48; 48; 101; 57; 92; 110; 92; 117; 100; 56; 51; 100; 92;
          117; 100; 101; 48; 48; 34; 125; 93] =
  Some (JArr [JObj [(lit "a", JStr [0xE9; 0x0A; 0x1F600]);
                    (lit "b", JArr [JBool true; JNull])]]).
Proof. reflexivity. Qed.

(** * Further properties of the script *)

(** ** More on [strip] *)

Lemma lstrip_fixed s :
  match s with [] => True | c :: _ => isspace c = false end -> lstrip s = s.
Proof. destruct s as [|c s]; [reflexivity|]. cbn [lstrip]. intros ->. reflexivity. Qed.

Lemma lstrip_idem s : lstrip (lstrip s) = lstrip s.
Proof.
  apply lstrip_fixed. destruct (lstrip s) as [|c t] eqn:E; [exact I|].
  exact (lstrip_head _ _ _ E).
Qed.

(** [lstrip] removes a run of whitespace from the front. *)
Lemma lstrip_split s :
  exists ws, s = ws ++ lstrip s /\ forallb isspace ws = true.
Proof.
  induction s as [|c s (ws & E & Hws)]; [exists []; split; reflexivity|].
  cbn [lstrip]. destruct (isspace c) eqn:Hc.
  - exists (c :: ws). cbn [app forallb]. rewrite Hc, Hws, <- E. split; reflexivity.
  - exists []. split; reflexivity.
Qed.

(** [rstrip] removes a run of whitespace from the end. *)
Lemma rstrip_split s :
  exists ws, s = rstrip s ++ ws /\ forallb isspace ws = true.
Proof.
  unfold rstrip. destruct (lstrip_split (reverse s)) as (ws & E & Hws).
  exists (reverse ws). split.
  - rewrite <- reverse_app, <- E, reverse_involutive. reflexivity.
  - rewrite forallb_reverse. exact Hws.
Qed.

Lemma rstrip_idem s : rstrip (rstrip s) = rstrip s.
Proof. unfold rstrip. rewrite reverse_involutive, lstrip_idem. reflexivity. Qed.

Lemma lstrip_rstrip_lstrip s : lstrip (rstrip (lstrip s)) = rstrip (lstrip s).
Proof.
  apply lstrip_fixed.
  destruct (rstrip_split (lstrip s)) as (ws & E & _).
  destruct (rstrip (lstrip s)) as [|c t]; [exact I|].
  cbn [app] in E. exact (lstrip_head _ _ _ E).
Qed.

(** Stripping twice is stripping once. *)
Lemma strip_idem s : strip (strip s) = strip s.
Proof. unfold strip. rewrite lstrip_rstrip_lstrip. apply rstrip_idem. Qed.

Lemma lstrip_Forall (P : char -> Prop) s : Forall P s -> Forall P (lstrip s).
Proof.
  induction 1 as [|c s Hc Hs IH]; [constructor|].
  cbn [lstrip]. destruct (isspace c); [exact IH|constructor; assumption].
Qed.

Lemma strip_Forall (P : char -> Prop) s : Forall P s -> Forall P (strip s).
Proof.
  intros H. unfold strip, rstrip.
  apply Forall_reverse, lstrip_Forall, Forall_reverse, lstrip_Forall, H.
Qed.

(** ** More on the normalisation loop *)

Lemma flat_map_length_le {A B} (f : A -> list B) l :
  (forall x, length (f x) <= 1)%nat -> (length (flat_map f l) <= length l)%nat.
Proof.
  intros Hf. induction l as [|x l IH]; [reflexivity|].
  cbn [flat_map length]. rewrite length_app. specialize (Hf x). lia.
Qed.

Lemma scrape_step_one selector el :
  (length (scrape_step selector [] el) <= 1)%nat.
Proof.
  unfold scrape_step.
  repeat match goal with |- context [if ?b then _ else _] => destruct b end;
    cbn; lia.
Qed.

(** X1: the loop treats each element on its own and keeps the order: the
    records of two element lists put end to end are the records of the first
    followed by those of the second; no elements give no records, and there
    are never more records than elements. *)
Theorem X1_normalize_elementwise selector elements1 elements2 :
  normalize selector (elements1 ++ elements2) =
    normalize selector elements1 ++ normalize selector elements2
  /\ normalize selector [] = []
  /\ (length (normalize selector elements1) <= length elements1)%nat.
Proof.
  rewrite !normalize_flat_map. split; [apply flat_map_app|].
  split; [reflexivity|].
  apply flat_map_length_le. intros el. apply scrape_step_one.
Qed.

Lemma lit_keys_distinct : NoDup [lit "text"; lit "html"].
Proof. refine (bool_decide_unpack _ _). vm_compute. exact I. Qed.

(** The shape of the records, whatever the selector. *)
Lemma normalize_keys selector elements :
  exists ks,
    (ks = [lit "text"] \/ ks = [lit "value"] \/ ks = [lit "text"; lit "html"])
    /\ Forall (fun r : record => keys r = ks) (normalize selector elements).
Proof.
  destruct (contains (lit "::text") selector) eqn:Ht.
  - exists [lit "text"]. split; [auto|].
    rewrite (normalize_text _ _ Ht). apply Forall_fmap, Forall_forall.
    intros t _. reflexivity.
  - destruct (contains (lit "::attr(") selector) eqn:Ha.
    + exists [lit "value"]. split; [auto|].
      rewrite (normalize_attr _ _ Ht Ha). apply Forall_fmap, Forall_forall.
      intros t _. reflexivity.
    + exists [lit "text"; lit "html"]. split; [auto|].
      rewrite (normalize_other _ _ Ht Ha). apply Forall_fmap, Forall_forall.
      intros t _. reflexivity.
Qed.

Lemma normalize_dicts selector elements : dicts (normalize selector elements).
Proof.
  destruct (normalize_keys selector elements) as (ks & Hks & Hall).
  unfold dicts. eapply Forall_impl; [exact Hall|].
  intros r ->. destruct Hks as [->|[->| ->]].
  - apply NoDup_singleton.
  - apply NoDup_singleton.
  - exact lit_keys_distinct.
Qed.

(** X2: all records of one result have the same keys, in the same order
    (one of [text], [value], or [text] then [html]), and no record holds a
    key twice: the result is a table with fixed columns. *)
Theorem X2_normalize_homogeneous selector elements :
  (exists ks,
     (ks = [lit "text"] \/ ks = [lit "value"] \/ ks = [lit "text"; lit "html"])
     /\ Forall (fun r : record => keys r = ks) (normalize selector elements))
  /\ dicts (normalize selector elements).
Proof. split; [apply normalize_keys|apply normalize_dicts]. Qed.

(** X3: whatever the selector, a [text] value in a record has no leading or
    trailing whitespace: stripping it again changes nothing. *)
Theorem X3_normalize_text_stripped selector elements :
  Forall (fun r : record =>
            Forall (fun kv : str * str => kv.1 = lit "text" -> strip kv.2 = kv.2) r)
    (normalize selector elements).
Proof.
  destruct (contains (lit "::text") selector) eqn:Ht.
  - rewrite (normalize_text _ _ Ht). apply Forall_fmap, Forall_forall.
    intros t Hin. apply list_elem_of_filter in Hin as [_ Hin].
    apply list_elem_of_fmap in Hin as (el & -> & _).
    repeat constructor. intros _. apply strip_idem.
  - destruct (contains (lit "::attr(") selector) eqn:Ha.
    + rewrite (normalize_attr _ _ Ht Ha). apply Forall_fmap, Forall_forall.
      intros el _. repeat constructor. cbn [fst]. intros H. exfalso.
      revert H. vm_compute. discriminate.
    + rewrite (normalize_other _ _ Ht Ha). apply Forall_fmap, Forall_forall.
      intros el _. repeat constructor.
      * intros _. cbn [snd]. destruct (el_text el); [apply strip_idem|reflexivity].
      * cbn [fst]. intros H. exfalso. revert H. vm_compute. discriminate.
Qed.

(** ** More on the JSON export *)

(** Whatever [to_json] returns is read back as the data. *)
Lemma json_loads_to_json data b :
  dicts data -> to_json data = Some b -> json_loads b = Some (json_of_data data).
Proof.
  intros Hnd Hb. unfold json_loads. rewrite (to_json_detects_utf8 data b Hb).
  rewrite (utf8_decode_encode _ _ Hb). cbn [mbind option_bind].
  rewrite (scan_once_json_dumps data Hnd). reflexivity.
Qed.

Lemma lit_encodable_text : str_encodable (lit "text").
Proof. repeat constructor. Qed.

Lemma lit_encodable_value : str_encodable (lit "value").
Proof. repeat constructor. Qed.

Lemma lit_encodable_html : str_encodable (lit "html").
Proof. repeat constructor. Qed.

(** Records made from encodable nodes are encodable. *)
Lemma scrape_step_encodable selector el :
  element_encodable el ->
  data_encodable (scrape_step selector [] el).
Proof.
  intros (Ht & Hh & Hs). unfold scrape_step, data_encodable.
  assert (str_encodable (default (el_str el) (el_text el))) as Hd
    by (destruct (el_text el); assumption).
  destruct (contains (lit "::text") selector).
  - replace (match el_text el with Some t => t | None => el_str el end)
      with (default (el_str el) (el_text el)) by (destruct (el_text el); reflexivity).
    destruct (truthy _ && truthy _); [|constructor].
    apply Forall_singleton, Forall_singleton.
    split; [apply lit_encodable_text|apply strip_Forall, Hd].
  - destruct (contains (lit "::attr(") selector).
    + apply Forall_singleton, Forall_singleton.
      split; [apply lit_encodable_value|exact Hs].
    + apply Forall_singleton. apply Forall_cons. split; [|apply Forall_singleton].
      * split; [apply lit_encodable_text|]. cbn [snd].
        destruct (el_text el) as [t|]; [|constructor].
        destruct (truthy t); [apply strip_Forall, Ht|constructor].
      * split; [apply lit_encodable_html|]. cbn [snd].
        apply Forall_take. destruct (el_html el); assumption.
Qed.

Lemma normalize_encodable selector elements :
  Forall element_encodable elements -> data_encodable (normalize selector elements).
Proof.
  rewrite normalize_flat_map. unfold data_encodable.
  induction 1 as [|el els Hel _ IH]; [constructor|].
  cbn [flat_map]. apply Forall_app. split; [|exact IH].
  apply scrape_step_encodable, Hel.
Qed.

(** X4: the records [scrape] builds from nodes whose strings hold no
    surrogate code point can always be exported: [to_json] returns bytes for
    them, and reading the bytes back gives the records. *)
Theorem X4_scraped_records_export selector elements :
  Forall element_encodable elements ->
  exists b,
    to_json (normalize selector elements) = Some b
    /\ json_loads b = Some (json_of_data (normalize selector elements)).
Proof.
  intros Henc.
  destruct (proj2 (to_json_defined (normalize selector elements))
              (normalize_encodable selector elements Henc)) as [b Hb].
  exists b. split; [exact Hb|].
  apply json_loads_to_json; [apply normalize_dicts|exact Hb].
Qed.

Lemma X4_scraped_records_export_witness :
  exists b,
    to_json (normalize (lit "div.quote") sample_elements) = Some b
    /\ json_loads b = Some (json_of_data (normalize (lit "div.quote") sample_elements)).
Proof.
  apply (X4_scraped_records_export (lit "div.quote") sample_elements).
  repeat constructor.
Defined.

Lemma json_of_data_inj data1 data2 :
  json_of_data data1 = json_of_data data2 -> data1 = data2.
Proof.
  unfold json_of_data. intros [= H]. revert data2 H.
  induction data1 as [|r1 d1 IH]; intros [|r2 d2]; cbn; try discriminate; [reflexivity|].
  intros [= Hr Hd]. f_equal; [|apply IH, Hd].
  clear -Hr. revert r2 Hr.
  induction r1 as [|[k1 v1] r1 IH]; intros [|[k2 v2] r2]; cbn; try discriminate;
    [reflexivity|].
  intros [= -> -> Hr]. f_equal. apply IH, Hr.
Qed.

(** X5: the JSON export loses nothing: two lists of dictionaries with the
    same exported bytes are the same list. *)
Theorem X5_to_json_injective data1 data2 b :
  dicts data1 -> dicts data2 ->
  to_json data1 = Some b -> to_json data2 = Some b ->
  data1 = data2.
Proof.
  intros Hd1 Hd2 H1 H2. apply json_of_data_inj.
  pose proof (json_loads_to_json _ _ Hd1 H1) as L1.
  pose proof (json_loads_to_json _ _ Hd2 H2) as L2.
  congruence.
Qed.

Lemma X5_to_json_injective_witness :
  [[(lit "text", lit "a")]] = [[(lit "text", lit "a")]].
Proof.
  apply (X5_to_json_injective [[(lit "text", lit "a")]] [[(lit "text", lit "a")]]
           [91; 10; 32; 32; 123; 10; 32; 32; 32; 32; 34; 116; 101; 120; 116; 34; 58; 32;
            34; 97; 34; 10; 32; 32; 125; 10; 93]).
  - unfold dicts. refine (bool_decide_unpack _ _). vm_compute. exact I.
  - unfold dicts. refine (bool_decide_unpack _ _). vm_compute. exact I.
  - reflexivity.
  - reflexivity.
Defined.





(** ** More on [scrape] *)

Section MoreScriptProperties.
Context (lib : scrapling).

(** The result of [scrape] and the calls it makes, case by case. *)
Lemma scrape_run url fetcher_type selector selector_type options w :
  scrape lib url fetcher_type selector selector_type options w =
  match fetch_call url fetcher_type options, fetched lib url fetcher_type options with
  | Some c, Some (inl e) => (inr (false, [], exn_str e), after_calls w [c])
  | Some c, Some (inr pg) =>
      match queried pg selector selector_type with
      | inl e =>
          (inr (false, [], exn_str e),
           after_calls w [c; query_call selector selector_type])
      | inr elements =>
          (inr (true, normalize selector elements, []),
           after_calls w [c; query_call selector selector_type])
      end
  | _, _ => (inr (false, [], lit "Unknown fetcher type: " ++ fetcher_type), w)
  end.
Proof.
  unfold scrape, try_except, scrape_body, fetch_call, fetched, queried, query_call.
  destruct (str_eqb fetcher_type (lit "Fetcher"));
    [|destruct (str_eqb fetcher_type (lit "StealthyFetcher"));
      [|destruct (str_eqb fetcher_type (lit "DynamicFetcher"))]].
  4: reflexivity.
  all: match goal with
       | |- context [invoke _ ?x] => destruct x as [e|pg]
       end; [reflexivity|].
  all: rewrite bind_invoke_return.
  all: destruct (str_eqb selector_type (lit "CSS")).
  all: match goal with
       | |- context [invoke _ ?x] => destruct x as [e|els]
       end.
  all: rewrite ?bind_invoke_raise, ?bind_invoke_return; unfold ret; cbn [fst snd];
    rewrite after_calls_app; reflexivity.
Qed.

Lemma fetch_call_fetched url fetcher_type options :
  fetch_call url fetcher_type options = None <->
  fetched lib url fetcher_type options = None.
Proof.
  unfold fetch_call, fetched.
  repeat match goal with |- context [if ?b then _ else _] => destruct b end;
    split; intros H; try discriminate H; reflexivity.
Qed.

Lemma fetch_call_is_fetch url fetcher_type options c :
  fetch_call url fetcher_type options = Some c -> is_fetch_call c = true.
Proof.
  unfold fetch_call.
  repeat match goal with |- context [if ?b then _ else _] => destruct b end;
    intros [= <-]; reflexivity.
Qed.

(** X7: [scrape] reports success exactly when the fetch returned a page and
    the query on it returned the matched elements; the data is then the
    normalisation of these elements and the error string is empty. *)
Theorem X7_scrape_success_iff url fetcher_type selector selector_type options w
    data error :
  (scrape lib url fetcher_type selector selector_type options w).1 =
    inr (true, data, error)
  <-> exists pg elements,
        fetched lib url fetcher_type options = Some (inr pg)
        /\ queried pg selector selector_type = inr elements
        /\ data = normalize selector elements
        /\ error = [].
Proof.
  rewrite scrape_run.
  destruct (fetch_call url fetcher_type options) as [c|] eqn:Ec.
  - destruct (fetched lib url fetcher_type options) as [[e|pg]|] eqn:Ef.
    + split; [discriminate|]. intros (pg & els & [=] & _).
    + destruct (queried pg selector selector_type) as [e|els] eqn:Eq.
      * split; [discriminate|].
        intros (pg' & els' & [= <-] & Hq & _). rewrite Eq in Hq. discriminate.
      * split.
        -- intros [= <- <-]. exists pg, els. repeat split. exact Eq.
        -- intros (pg' & els' & [= <-] & Hq & -> & ->).
           rewrite Eq in Hq. injection Hq as <-. reflexivity.
    + split; [discriminate|]. intros (pg & els & [=] & _).
  - apply (fetch_call_fetched url fetcher_type options) in Ec. rewrite Ec.
    split; [discriminate|]. intros (pg & els & [=] & _).
Qed.


(** X9: the library calls of one [scrape]: none for an unknown fetcher type;
    otherwise one fetch call, followed, only when the fetch returned a page,
    by one query for the selector as given, through [css] when the selector
    type is exactly ["CSS"] and through [xpath] for any other value. *)
Theorem X9_scrape_calls url fetcher_type selector selector_type options w :
  exists cs,
    calls (scrape lib url fetcher_type selector selector_type options w).2 =
      calls w ++ cs
    /\ match fetched lib url fetcher_type options with
       | None => cs = []
       | Some (inl _) => exists c, cs = [c] /\ is_fetch_call c = true
       | Some (inr _) =>
           exists c,
             cs = [c; if decide (selector_type = lit "CSS")
                      then Call_css selector else Call_xpath selector]
             /\ is_fetch_call c = true
       end.
Proof.
  rewrite scrape_run.
  destruct (fetch_call url fetcher_type options) as [c|] eqn:Ec.
  - pose proof (fetch_call_is_fetch _ _ _ _ Ec) as Hc.
    destruct (fetched lib url fetcher_type options) as [[e|pg]|] eqn:Ef.
    + exists [c]. split; [reflexivity|]. exists c. split; [reflexivity|exact Hc].
    + assert (query_call selector selector_type =
              if decide (selector_type = lit "CSS")
              then Call_css selector else Call_xpath selector) as Hq.
      { unfold query_call, str_eqb. destruct (decide (selector_type = lit "CSS")).
        - rewrite bool_decide_eq_true_2 by assumption. reflexivity.
        - rewrite bool_decide_eq_false_2 by assumption. reflexivity. }
      exists [c; query_call selector selector_type]. split.
      * destruct (queried pg selector selector_type); reflexivity.
      * exists c. rewrite Hq. split; [reflexivity|exact Hc].
    + apply (fetch_call_fetched url fetcher_type options) in Ef. congruence.
  - apply (fetch_call_fetched url fetcher_type options) in Ec. rewrite Ec.
    exists []. split; [cbn; rewrite app_nil_r; reflexivity|reflexivity].
Qed.

Lemma scrape_first_call url fetcher_type selector selector_type options w c :
  fetch_call url fetcher_type options = Some c ->
  exists rest,
    calls (scrape lib url fetcher_type selector selector_type options w).2 =
    calls w ++ c :: rest.
Proof.
  intros Ec. rewrite scrape_run, Ec.
  destruct (fetched lib url fetcher_type options) as [[e|pg]|] eqn:Ef.
  - exists []. reflexivity.
  - destruct (queried pg selector selector_type); eexists; reflexivity.
  - apply (fetch_call_fetched url fetcher_type options) in Ef. congruence.
Qed.

(** X10: the arguments of the fetch call.  [Fetcher.get] gets stealthy
    headers and the [timeout] option, 30 when the key is missing;
    [StealthyFetcher.fetch] gets [headless] (default true) and
    [solve_cloudflare] (default false) and always [network_idle=True],
    whatever the options hold; [DynamicFetcher.fetch] gets [headless] and
    [network_idle], both true by default. *)
Theorem X10_fetch_arguments url fetcher_type selector selector_type options w :
  (fetcher_type = lit "Fetcher" ->
   exists rest,
     calls (scrape lib url fetcher_type selector selector_type options w).2 =
     calls w ++ Call_Fetcher_get url (PBool true)
                  (default (PInt 30) (options !! lit "timeout")) :: rest)
  /\ (fetcher_type = lit "StealthyFetcher" ->
      exists rest,
        calls (scrape lib url fetcher_type selector selector_type options w).2 =
        calls w ++ Call_StealthyFetcher_fetch url
                     (default (PBool true) (options !! lit "headless"))
                     (default (PBool false) (options !! lit "solve_cloudflare"))
                     (PBool true) :: rest)
  /\ (fetcher_type = lit "DynamicFetcher" ->
      exists rest,
        calls (scrape lib url fetcher_type selector selector_type options w).2 =
        calls w ++ Call_DynamicFetcher_fetch url
                     (default (PBool true) (options !! lit "headless"))
                     (default (PBool true) (options !! lit "network_idle")) :: rest).
Proof.
  repeat split; intros ->; apply scrape_first_call; reflexivity.
Qed.
End MoreScriptProperties.

Lemma X7_scrape_success_iff_witness :
  (scrape sample_lib (lit "https://example.org") (lit "Fetcher") (lit "p::text")
     (lit "CSS") ∅ sample_world).1 =
  inr (true, normalize (lit "p::text") sample_elements, []).
Proof.
  apply (X7_scrape_success_iff sample_lib (lit "https://example.org") (lit "Fetcher")
           (lit "p::text") (lit "CSS") ∅ sample_world).
  exists sample_page, sample_elements. repeat split.
Defined.

Lemma X10_fetch_arguments_witness :
  exists rest,
    calls (scrape sample_lib (lit "https://example.org") (lit "StealthyFetcher")
             (lit "p::text") (lit "CSS")
             (<[lit "network_idle" := PBool false]> ∅) sample_world).2 =
    calls sample_world
    ++ Call_StealthyFetcher_fetch (lit "https://example.org") (PBool true) (PBool false)
         (PBool true) :: rest.
Proof.
  destruct (X10_fetch_arguments sample_lib (lit "https://example.org")
              (lit "StealthyFetcher") (lit "p::text") (lit "CSS")
              (<[lit "network_idle" := PBool false]> ∅) sample_world)
    as (_ & H & _).
  destruct (H eq_refl) as [rest Hrest]. exists rest. exact Hrest.
Defined.

(** ** More on the button handler *)

Section MoreHandlerProperties.
Context (lib : scrapling).

(** X11: with an empty URL the handler only shows ["Please enter a URL"],
    whatever the selector is; with a URL but an empty selector it only shows
    ["Please enter a selector"].  In both cases nothing is fetched and the
    session, with its results and history, is left as it was. *)
Theorem X11_empty_inputs_rejected now url fetcher_type selector selector_type
    options w :
  (url = [] ->
   on_scrape_click lib now url fetcher_type selector selector_type options w =
   (inr tt,
    {| session := session w; calls := calls w;
       ui := ui w ++ [St_error (lit "Please enter a URL")] |}))
  /\ (url <> [] -> selector = [] ->
      on_scrape_click lib now url fetcher_type selector selector_type options w =
      (inr tt,
       {| session := session w; calls := calls w;
          ui := ui w ++ [St_error (lit "Please enter a selector")] |})).
Proof.
  split.
  - intros ->. reflexivity.
  - intros Hu ->. unfold on_scrape_click.
    apply truthy_true in Hu. rewrite Hu. reflexivity.
Qed.


(** X13: a scrape that succeeds without any record (no element matched, or
    with [::text] every text was blank) still counts as a success: the
    handler shows ["Found 0 items!"], replaces the results by the empty list,
    so that the results table is no longer shown, and records a success
    entry with count 0. *)
Theorem X13_success_without_records now url fetcher_type selector selector_type
    options pg elements w :
  url <> [] -> selector <> [] ->
  fetched lib url fetcher_type options = Some (inr pg) ->
  queried pg selector selector_type = inr elements ->
  normalize selector elements = [] ->
  exists w' e rest,
    on_scrape_click lib now url fetcher_type selector selector_type options w =
      (inr tt, w')
    /\ results (session w') = Some []
    /\ results_shown (session w') = false
    /\ ui w' = ui w ++ [St_spinner (lit "Scraping with " ++ fetcher_type ++ lit "...");
                        St_success (check_mark ++ lit " Found 0 items!")]
    /\ history (session w') = e :: rest
    /\ h_status e = check_mark /\ h_count e = 0%nat.
Proof.
  intros Hu Hs Hf Hq Hn.
  destruct (scrape_uniform lib url fetcher_type selector selector_type options)
    as (r & cs & Hrun).
  assert (r = (true, [], [])) as ->.
  { pose proof (Hrun initial_world) as H0. rewrite scrape_run, Hf, Hq, Hn in H0.
    destruct (fetch_call url fetcher_type options) eqn:Ec.
    - injection H0 as <-. reflexivity.
    - apply (fetch_call_fetched lib url fetcher_type options) in Ec. congruence. }
  rewrite (on_scrape_click_success lib now _ _ _ _ _ _ _ cs w Hu Hs Hrun).
  eexists. eexists. exists (take 19 (history (session w))).
  split; [reflexivity|]. cbn [session calls ui]. repeat split.
Qed.
End MoreHandlerProperties.

Lemma X11_empty_inputs_rejected_witness :
  on_scrape_click sample_lib (lit "12:00:21") [] (lit "Fetcher") [] (lit "CSS") ∅
    sample_world =
  (inr tt,
   {| session := session sample_world; calls := calls sample_world;
      ui := ui sample_world ++ [St_error (lit "Please enter a URL")] |})
  /\ on_scrape_click sample_lib (lit "12:00:21") (lit "https://example.org")
       (lit "Fetcher") [] (lit "CSS") ∅ sample_world =
     (inr tt,
      {| session := session sample_world; calls := calls sample_world;
         ui := ui sample_world ++ [St_error (lit "Please enter a selector")] |}).
Proof.
  split.
  - apply (X11_empty_inputs_rejected sample_lib (lit "12:00:21") [] (lit "Fetcher") []
             (lit "CSS") ∅ sample_world). reflexivity.
  - apply (X11_empty_inputs_rejected sample_lib (lit "12:00:21")
             (lit "https://example.org") (lit "Fetcher") [] (lit "CSS") ∅ sample_world).
    + vm_compute. discriminate.
    + reflexivity.
Defined.


Lemma X13_success_without_records_witness :
  exists w' e rest,
    on_scrape_click blank_lib (lit "12:00:21") (lit "https://example.org")
      (lit "Fetcher") (lit "p::text") (lit "CSS") ∅ sample_world = (inr tt, w')
    /\ results (session w') = Some []
    /\ results_shown (session w') = false
    /\ ui w' = ui sample_world
               ++ [St_spinner (lit "Scraping with " ++ lit "Fetcher" ++ lit "...");
                   St_success (check_mark ++ lit " Found 0 items!")]
    /\ history (session w') = e :: rest
    /\ h_status e = check_mark /\ h_count e = 0%nat.
Proof.
  apply (X13_success_without_records blank_lib (lit "12:00:21")
           (lit "https://example.org") (lit "Fetcher") (lit "p::text") (lit "CSS") ∅
           blank_page [Element (Some (lit "   ")) None (lit "<br>")] sample_world).
  - vm_compute. discriminate.
  - vm_compute. discriminate.
  - reflexivity.
  - reflexivity.
  - reflexivity.
Defined.

(** ** More on the history, the sidebar and the presets *)

Lemma take_app_take {A} n (a b : list A) : take n (a ++ take n b) = take n (a ++ b).
Proof.
  rewrite !take_app, take_take. f_equal. f_equal. lia.
Qed.

(** The history after a series of calls of [add_to_history]. *)
Lemma add_runs_history runs : forall w,
  (length (history (session w)) <= 20)%nat ->
  exists es,
    Forall2 (fun r e => h_time e = run_now r /\ h_fetcher e = run_fetcher r
                        /\ h_count e = run_count r /\ h_status e = run_status r)
      runs es
    /\ add_runs runs w =
       (inr tt,
        {| session := map_history (fun h => take 20 (reverse es ++ h)) (session w);
           calls := calls w;
           ui := ui w |}).
Proof.
  induction runs as [|r runs IH]; intros w Hlen.
  - exists []. split; [constructor|]. cbn [add_runs]. unfold ret.
    destruct w as [[res lu h] cs u]. cbn in Hlen |- *. unfold map_history. cbn.
    rewrite take_ge by lia. reflexivity.
  - cbn [add_runs]. unfold bind at 1. rewrite add_to_history_run.
    match goal with
    | |- context [take 20 (?x :: _)] => set (e := x)
    end.
    destruct (IH {| session := map_history (fun h => take 20 (e :: h)) (session w);
                    calls := calls w; ui := ui w |}) as (es & Hes & Hrun).
    { cbn. rewrite length_take. lia. }
    exists (e :: es). split.
    + constructor; [repeat split|exact Hes].
    + rewrite Hrun. cbn [session calls ui]. f_equal. f_equal.
      destruct (session w) as [res lu h]. unfold map_history. cbn [results last_url history].
      f_equal. rewrite take_app_take, reverse_cons, <- app_assoc. reflexivity.
Qed.

(** X14: after any series of recorded runs, starting from a history of at
    most 20 entries, the history holds the most recent runs first, the older
    entries after them, cut to 20 entries in all; its length is the number of
    runs plus the old length, capped at 20.  Results, last URL, call log and
    messages are not touched. *)
Theorem X14_history_after_runs runs w :
  (length (history (session w)) <= 20)%nat ->
  exists es w',
    add_runs runs w = (inr tt, w')
    /\ Forall2 (fun r e => h_time e = run_now r /\ h_fetcher e = run_fetcher r
                           /\ h_count e = run_count r /\ h_status e = run_status r)
         runs es
    /\ history (session w') = take 20 (reverse es ++ history (session w))
    /\ length (history (session w')) =
         Nat.min 20 (length runs + length (history (session w)))
    /\ results (session w') = results (session w)
    /\ last_url (session w') = last_url (session w)
    /\ calls w' = calls w /\ ui w' = ui w.
Proof.
  intros Hlen. destruct (add_runs_history runs w Hlen) as (es & Hes & Hrun).
  exists es. eexists. split; [exact Hrun|]. cbn [session calls ui].
  split; [exact Hes|]. split; [reflexivity|]. split.
  - cbn [map_history history]. rewrite length_take, length_app, length_reverse.
    rewrite <- (Forall2_length _ _ _ Hes). reflexivity.
  - repeat split.
Qed.

Lemma X14_history_after_runs_witness :
  exists es w',
    add_runs sample_runs initial_world = (inr tt, w')
    /\ Forall2 (fun r e => h_time e = run_now r /\ h_fetcher e = run_fetcher r
                           /\ h_count e = run_count r /\ h_status e = run_status r)
         sample_runs es
    /\ history (session w') = take 20 (reverse es ++ history (session initial_world))
    /\ length (history (session w')) =
         Nat.min 20 (length sample_runs + length (history (session initial_world)))
    /\ results (session w') = results (session initial_world)
    /\ last_url (session w') = last_url (session initial_world)
    /\ calls w' = calls initial_world /\ ui w' = ui initial_world.
Proof.
  apply (X14_history_after_runs sample_runs initial_world). cbn. lia.
Defined.

(** X15: with the options the sidebar builds for the chosen fetcher, the
    fetch call gets the values of the widgets: the slider's timeout for
    [Fetcher], the two checkboxes for [StealthyFetcher] (and
    [network_idle=True]), the two checkboxes for [DynamicFetcher]; the
    defaults of [options.get] never apply. *)
Theorem X15_sidebar_options_reach_fetcher lib url selector selector_type v w :
  (exists rest,
     calls (scrape lib url (lit "Fetcher") selector selector_type
              (sidebar_options (lit "Fetcher") v) w).2 =
     calls w ++ Call_Fetcher_get url (PBool true) (PInt (w_timeout v)) :: rest)
  /\ (exists rest,
        calls (scrape lib url (lit "StealthyFetcher") selector selector_type
                 (sidebar_options (lit "StealthyFetcher") v) w).2 =
        calls w ++ Call_StealthyFetcher_fetch url (PBool (w_headless v))
                     (PBool (w_solve_cloudflare v)) (PBool true) :: rest)
  /\ (exists rest,
        calls (scrape lib url (lit "DynamicFetcher") selector selector_type
                 (sidebar_options (lit "DynamicFetcher") v) w).2 =
        calls w ++ Call_DynamicFetcher_fetch url (PBool (w_headless v))
                     (PBool (w_network_idle v)) :: rest).
Proof.
  repeat split; apply scrape_first_call; vm_compute; reflexivity.
Qed.

Lemma QUICK_MAP_values quick selector :
  QUICK_MAP !! quick = Some selector ->
  selector ∈ [lit "a::attr(href)"; lit "img::attr(src)"; lit "p::text";
              lit "h1, h2, h3::text"; lit "td::text"].
Proof.
  unfold QUICK_MAP. intros H. apply elem_of_list_to_map_2 in H.
  repeat (apply elem_of_cons in H as [[= _ <-]|H]; [set_solver|]).
  inversion H.
Qed.

(** X16: whatever is chosen in the quick-selector list, the default selector
    is either empty (as for ["(select)"], which the handler then rejects) or
    one for which every record has the single key [text], or one for which
    every element gives one record with the single key [value]; no preset
    gives [text]/[html] records. *)
Theorem X16_presets_give_one_column quick elements :
  default_selector (lit "(select)") = []
  /\ (default_selector quick = []
      \/ Forall (fun r : record => keys r = [lit "text"])
           (normalize (default_selector quick) elements)
      \/ (Forall (fun r : record => keys r = [lit "value"])
            (normalize (default_selector quick) elements)
          /\ length (normalize (default_selector quick) elements) = length elements)).
Proof.
  split; [reflexivity|].
  unfold default_selector. destruct (QUICK_MAP !! quick) as [s|] eqn:E; [|left; reflexivity].
  right. cbn [default].
  assert (contains (lit "::text") s = true
          \/ (contains (lit "::text") s = false /\ contains (lit "::attr(") s = true))
    as [Ht|[Ht Ha]].
  { apply QUICK_MAP_values in E.
    repeat (apply elem_of_cons in E as [->|E]; [vm_compute; auto|]).
    inversion E. }
  - left. rewrite (normalize_text _ _ Ht). apply Forall_fmap, Forall_forall.
    intros t _. reflexivity.
  - right. rewrite (normalize_attr _ _ Ht Ha). split; [|apply length_fmap].
    apply Forall_fmap, Forall_forall. intros t _. reflexivity.
Qed.



